(** * gemini_notion_app: a shallow embedding of the Notion aggregation service

    The development follows [gemini_notion_app.py] top-down:
    - [Py]: the fragment of the Python runtime the program relies on
      (dynamically typed values, truthiness, [dict.get], iteration,
      [str.lower], [str.split], [in], [json.dumps], [str]);
    - the remote document API as a script of responses consumed by
      [requests.post], together with the log of the requests issued;
    - the helper functions and the route handlers of the application;
    - the specification theorems.

    Text is modelled with one [ascii] per code point, which covers the code
    points below 256; JSON numbers are modelled as integers. *)

From Stdlib Require Import String Ascii List ZArith Bool Lia DecimalString.
From Stdlib Require DecimalPos DecimalZ.
Import ListNotations.

Local Open Scope list_scope.
Local Open Scope string_scope.

(** ** The Python runtime fragment *)

Module Py.

(** Values that flow through the program: what [json.loads] produces and
    what the program builds from it. A [dict] keeps its insertion order. *)
#[warnings="-register-all"]
Inductive value : Type :=
| VNone
| VBool (b : bool)
| VInt (n : Z)
| VStr (s : string)
| VList (l : list value)
| VDict (d : list (string * value)).

Inductive exn : Type :=
| AttributeError (msg : string)
| TypeError (msg : string)
| KeyError (msg : string)
| IndexError (msg : string)
| JSONDecodeError (msg : string)
| OverflowError (msg : string)
| RuntimeError (msg : string)
| HTTPException (status : Z) (msg : string).

Definition str_exn (e : exn) : string :=
  match e with
  | AttributeError m | TypeError m | KeyError m | IndexError m
  | JSONDecodeError m | OverflowError m | RuntimeError m
  | HTTPException _ m => m
  end.

(** Outcome of a pure computation that may raise. *)
Inductive res (A : Type) : Type :=
| Ok (a : A)
| Raise (e : exn).
Arguments Ok {A} a.
Arguments Raise {A} e.

Definition rbind {A B} (m : res A) (k : A -> res B) : res B :=
  match m with
  | Ok a => k a
  | Raise e => Raise e
  end.

Fixpoint rmap {A B} (f : A -> res B) (l : list A) : res (list B) :=
  match l with
  | [] => Ok []
  | x :: r =>
      rbind (f x) (fun y => rbind (rmap f r) (fun ys => Ok (y :: ys)))
  end.

Fixpoint rfold {A S} (f : S -> A -> res S) (l : list A) (s : S) : res S :=
  match l with
  | [] => Ok s
  | x :: r => rbind (f s x) (rfold f r)
  end.

Definition type_name (v : value) : string :=
  match v with
  | VNone => "NoneType"
  | VBool _ => "bool"
  | VInt _ => "int"
  | VStr _ => "str"
  | VList _ => "list"
  | VDict _ => "dict"
  end.

(** [bool(v)] *)
Definition truthy (v : value) : bool :=
  match v with
  | VNone => false
  | VBool b => b
  | VInt n => negb (n =? 0)%Z
  | VStr s => negb (s =? "")
  | VList l => match l with [] => false | _ => true end
  | VDict d => match d with [] => false | _ => true end
  end.

(** [v == s] for a string literal [s] *)
Definition eq_str (v : value) (s : string) : bool :=
  match v with
  | VStr t => (t =? s)
  | _ => false
  end.

(** *** dict *)

Fixpoint dict_get (d : list (string * value)) (k : string) : option value :=
  match d with
  | [] => None
  | (k', v) :: r => if (k' =? k) then Some v else dict_get r k
  end.

Definition dict_keys (d : list (string * value)) : list string := map fst d.

(** [d[k] = v]: an existing key keeps its position, a new key goes last. *)
Fixpoint dict_set (d : list (string * value)) (k : string) (v : value)
  : list (string * value) :=
  match d with
  | [] => [(k, v)]
  | (k', v') :: r =>
      if (k' =? k) then (k, v) :: r else (k', v') :: dict_set r k v
  end.

Definition no_attribute (v : value) (a : string) : exn :=
  AttributeError ("'" ++ type_name v ++ "' object has no attribute '" ++ a ++ "'").

(** [v.get(k, default)] *)
Definition get (v : value) (k : string) (default : value) : res value :=
  match v with
  | VDict d => Ok (match dict_get d k with Some x => x | None => default end)
  | _ => Raise (no_attribute v "get")
  end.

(** [v.keys()] *)
Definition keys (v : value) : res (list string) :=
  match v with
  | VDict d => Ok (dict_keys d)
  | _ => Raise (no_attribute v "keys")
  end.

Fixpoint chars (s : string) : list value :=
  match s with
  | EmptyString => []
  | String c r => VStr (String c EmptyString) :: chars r
  end.

(** [iter(v)]: the elements a [for] loop, a comprehension or
    [list.extend] draws from [v]. *)
Definition iter (v : value) : res (list value) :=
  match v with
  | VList l => Ok l
  | VStr s => Ok (chars s)
  | VDict d => Ok (map VStr (dict_keys d))
  | _ => Raise (TypeError ("'" ++ type_name v ++ "' object is not iterable"))
  end.

(** [v[0]] *)
Definition index0 (v : value) : res value :=
  match v with
  | VList (x :: _) => Ok x
  | VList [] => Raise (IndexError "list index out of range")
  | VStr (String c _) => Ok (VStr (String c EmptyString))
  | VStr EmptyString => Raise (IndexError "string index out of range")
  | VDict _ => Raise (KeyError "0")
  | _ => Raise (TypeError ("'" ++ type_name v ++ "' object is not subscriptable"))
  end.

(** *** str *)

Definition code (c : ascii) : N := N_of_ascii c.

(** Lower-casing of one code point below 256: the ASCII capitals and the
    Latin-1 capitals (192 to 222, the multiplication sign 215 apart) move up
    by 32, every other code point is kept. On these code points this is
    [str.lower]; code points from 256 on are outside the model, and what
    is proved of [lower] says nothing of them (some lower-case to ASCII, as
    the Kelvin sign U+212A to k, or to several code points, as U+0130). *)
Definition lower_char (c : ascii) : ascii :=
  let n := code c in
  if ((65 <=? n) && (n <=? 90) ||
      (192 <=? n) && (n <=? 222) && negb (n =? 215))%N
  then ascii_of_N (n + 32) else c.

(** [s.lower()], for a text [s] of code points below 256 *)
Fixpoint lower (s : string) : string :=
  match s with
  | EmptyString => EmptyString
  | String c r => String (lower_char c) (lower r)
  end.

(** [sub in s] for two strings *)
Fixpoint contains (sub s : string) : bool :=
  String.prefix sub s ||
  match s with
  | EmptyString => false
  | String _ r => contains sub r
  end.

Definition is_space (c : ascii) : bool :=
  let n := code c in
  ((9 <=? n) && (n <=? 13) || (28 <=? n) && (n <=? 32) ||
   (n =? 133) || (n =? 160))%N.

Fixpoint split_go (s cur : string) : list string :=
  match s with
  | EmptyString => if (cur =? "") then [] else [cur]
  | String c r =>
      if is_space c
      then (if (cur =? "") then split_go r "" else cur :: split_go r "")
      else split_go r (cur ++ String c EmptyString)
  end.

(** [s.split()]: the maximal runs of non-whitespace characters. *)
Definition split (s : string) : list string := split_go s "".

(** [sep.join(l)] for a list of values; every item must be a [str]. *)
Fixpoint expect_strs (i : nat) (l : list value) : res (list string) :=
  match l with
  | [] => Ok []
  | VStr s :: r => rbind (expect_strs (S i) r) (fun ss => Ok (s :: ss))
  | v :: _ =>
      Raise (TypeError ("sequence item " ++ NilZero.string_of_uint (Nat.to_uint i)
                        ++ ": expected str instance, " ++ type_name v ++ " found"))
  end.

Definition join (sep : string) (l : list value) : res string :=
  rbind (expect_strs 0 l) (fun ss => Ok (String.concat sep ss)).

(** [str(n)] for an integer *)
Definition str_int (n : Z) : string := NilZero.string_of_int (Z.to_int n).

(** [a >= b]; only two strings are ordered, by code point. *)
Definition ge (a : value) (b : string) : res bool :=
  match a with
  | VStr s => Ok (String.leb b s)
  | _ =>
      Raise (TypeError ("'>=' not supported between instances of '"
                        ++ type_name a ++ "' and 'str'"))
  end.

(** [s in v] for a string [s] *)
Definition member (s : string) (v : value) : res bool :=
  match v with
  | VDict d => Ok (existsb (String.eqb s) (dict_keys d))
  | VList l => Ok (existsb (fun x => eq_str x s) l)
  | VStr t => Ok (contains s t)
  | _ => Raise (TypeError ("argument of type '" ++ type_name v ++ "' is not iterable"))
  end.

(** [v[k]] for a string key [k] *)
Definition getitem (v : value) (k : string) : res value :=
  match v with
  | VDict d =>
      match dict_get d k with
      | Some x => Ok x
      | None => Raise (KeyError ("'" ++ k ++ "'"))
      end
  | VList _ => Raise (TypeError "list indices must be integers or slices, not str")
  | VStr _ => Raise (TypeError "string indices must be integers, not 'str'")
  | _ => Raise (TypeError ("'" ++ type_name v ++ "' object is not subscriptable"))
  end.

(** *** Serialisation: [json.dumps] and [str] *)

Definition dquote : ascii := "034"%char.
Definition squote : ascii := "039"%char.
Definition backslash : ascii := "092"%char.
Definition newline : ascii := "010"%char.

Definition chr (c : ascii) : string := String c EmptyString.

Definition hex_digit (n : N) : ascii :=
  if (n <? 10)%N then ascii_of_N (48 + n) else ascii_of_N (87 + n).

Definition hex2 (n : N) : string :=
  String (hex_digit (n / 16)) (String (hex_digit (n mod 16)) EmptyString).

(** One character inside a JSON string literal ([ensure_ascii=True]). *)
Definition json_char (c : ascii) : string :=
  let n := code c in
  if (n =? 34)%N then chr backslash ++ chr dquote
  else if (n =? 92)%N then chr backslash ++ chr backslash
  else if (n =? 10)%N then chr backslash ++ "n"
  else if (n =? 13)%N then chr backslash ++ "r"
  else if (n =? 9)%N then chr backslash ++ "t"
  else if (n =? 8)%N then chr backslash ++ "b"
  else if (n =? 12)%N then chr backslash ++ "f"
  else if ((32 <=? n) && (n <=? 126))%N then chr c
  else chr backslash ++ "u00" ++ hex2 n.

Fixpoint json_chars (s : string) : string :=
  match s with
  | EmptyString => EmptyString
  | String c r => json_char c ++ json_chars r
  end.

Definition json_str (s : string) : string :=
  chr dquote ++ json_chars s ++ chr dquote.

(** [json.dumps(v)] *)
Fixpoint dumps (v : value) : string :=
  match v with
  | VNone => "null"
  | VBool true => "true"
  | VBool false => "false"
  | VInt n => str_int n
  | VStr s => json_str s
  | VList l => "[" ++ String.concat ", " (map dumps l) ++ "]"
  | VDict d =>
      "{" ++ String.concat ", "
               (map (fun kv => json_str (fst kv) ++ ": " ++ dumps (snd kv)) d)
          ++ "}"
  end.

Fixpoint spaces (n : nat) : string :=
  match n with
  | O => EmptyString
  | S k => String " " (spaces k)
  end.

Definition break_line (indent level : nat) : string :=
  chr newline ++ spaces (indent * level).

(** [json.dumps(v, indent=indent)], at nesting depth [level] *)
Fixpoint dumps_at (indent level : nat) (v : value) : string :=
  match v with
  | VNone => "null"
  | VBool true => "true"
  | VBool false => "false"
  | VInt n => str_int n
  | VStr s => json_str s
  | VList [] => "[]"
  | VList l =>
      "[" ++ break_line indent (S level)
          ++ String.concat ("," ++ break_line indent (S level))
               (map (dumps_at indent (S level)) l)
          ++ break_line indent level ++ "]"
  | VDict [] => "{}"
  | VDict d =>
      "{" ++ break_line indent (S level)
          ++ String.concat ("," ++ break_line indent (S level))
               (map (fun kv => json_str (fst kv) ++ ": "
                                 ++ dumps_at indent (S level) (snd kv)) d)
          ++ break_line indent level ++ "}"
  end.

Definition dumps_indent (indent : nat) (v : value) : string :=
  dumps_at indent 0 v.

Definition printable (c : ascii) : bool :=
  let n := code c in
  ((32 <=? n) && (n <=? 126) || (161 <=? n) && negb (n =? 173))%N.

(** One character inside [repr] of a string quoted with [q]. *)
Definition repr_char (q c : ascii) : string :=
  let n := code c in
  if (n =? 92)%N then chr backslash ++ chr backslash
  else if (n =? code q)%N then chr backslash ++ chr c
  else if (n =? 9)%N then chr backslash ++ "t"
  else if (n =? 10)%N then chr backslash ++ "n"
  else if (n =? 13)%N then chr backslash ++ "r"
  else if printable c then chr c
  else chr backslash ++ "x" ++ hex2 n.

Fixpoint repr_chars (q : ascii) (s : string) : string :=
  match s with
  | EmptyString => EmptyString
  | String c r => repr_char q c ++ repr_chars q r
  end.

Definition repr_str (s : string) : string :=
  let q := if contains (chr squote) s && negb (contains (chr dquote) s)
           then dquote else squote in
  chr q ++ repr_chars q s ++ chr q.

(** [repr(v)] *)
Fixpoint repr (v : value) : string :=
  match v with
  | VNone => "None"
  | VBool true => "True"
  | VBool false => "False"
  | VInt n => str_int n
  | VStr s => repr_str s
  | VList l => "[" ++ String.concat ", " (map repr l) ++ "]"
  | VDict d =>
      "{" ++ String.concat ", "
               (map (fun kv => repr_str (fst kv) ++ ": " ++ repr (snd kv)) d)
          ++ "}"
  end.

(** [str(v)] *)
Definition str (v : value) : string :=
  match v with
  | VStr s => s
  | _ => repr v
  end.

(** *** Numbers *)

(** [len(v)] *)
Definition len (v : value) : res Z :=
  match v with
  | VList l => Ok (Z.of_nat (List.length l))
  | VStr s => Ok (Z.of_nat (String.length s))
  | VDict d => Ok (Z.of_nat (List.length d))
  | _ => Raise (TypeError ("object of type '" ++ type_name v ++ "' has no len()"))
  end.

(** [n + v] for an integer [n], as [sum] computes it; a [bool] counts as
    0 or 1. *)
Definition add (n : Z) (v : value) : res Z :=
  match v with
  | VInt m => Ok (n + m)%Z
  | VBool b => Ok (n + (if b then 1 else 0))%Z
  | _ =>
      Raise (TypeError ("unsupported operand type(s) for +: 'int' and '"
                        ++ type_name v ++ "'"))
  end.

(** [enumerate(l, start)] *)
Fixpoint enumerate {A} (start : Z) (l : list A) : list (Z * A) :=
  match l with
  | [] => []
  | x :: r => (start, x) :: enumerate (start + 1) r
  end.

End Py.

Import Py.

Declare Scope res_scope.
Delimit Scope res_scope with res.
Notation "x <- e ;; k" := (rbind e (fun x => k))
  (at level 61, e at next level, right associativity) : res_scope.
Notation "' pat <- e ;; k" := (rbind e (fun x => match x with pat => k end))
  (at level 61, pat pattern, e at next level, right associativity) : res_scope.

(** ** Notion helper functions without effects *)

(** [get_property_value(properties, property_name)] *)
Definition get_property_value (properties : value) (property_name : string)
  : res value :=
  (prop <- get properties property_name (VDict []) ;;
   prop_type <- get prop "type" VNone ;;
   if negb (truthy prop_type) then Ok VNone
   else if eq_str prop_type "title" then
     title_list <- get prop "title" (VList []) ;;
     if truthy title_list
     then first <- index0 title_list ;; get first "plain_text" (VStr "")
     else Ok (VStr "")
   else if eq_str prop_type "rich_text" then
     text_list <- get prop "rich_text" (VList []) ;;
     ts <- iter text_list ;;
     texts <- rmap (fun t => get t "plain_text" (VStr "")) ts ;;
     joined <- join " " texts ;;
     Ok (VStr joined)
   else if eq_str prop_type "url" then
     get prop "url" (VStr "")
   else if eq_str prop_type "date" then
     date_obj <- get prop "date" (VDict []) ;;
     if truthy date_obj then get date_obj "start" (VStr "") else Ok (VStr "")
   else if eq_str prop_type "select" then
     select_obj <- get prop "select" (VDict []) ;;
     if truthy select_obj then get select_obj "name" (VStr "") else Ok (VStr "")
   else if eq_str prop_type "multi_select" then
     options <- get prop "multi_select" (VList []) ;;
     its <- iter options ;;
     names <- rmap (fun item => get item "name" (VStr "")) its ;;
     Ok (VList names)
   else Ok VNone)%res.

(** The body of the loop over [properties.keys()] in [parse_notion_page]:
    [acc] is [parsed["properties"]]. *)
Definition parse_step (properties : value) (acc : list (string * value))
  (prop_name : string) : res (list (string * value)) :=
  (v <- get_property_value properties prop_name ;;
   Ok (if truthy v then dict_set acc prop_name v else acc))%res.

(** [parse_notion_page(page)] *)
Definition parse_notion_page (page : value) : res value :=
  (properties <- get page "properties" (VDict []) ;;
   id <- get page "id" (VStr "") ;;
   url <- get page "url" (VStr "") ;;
   created <- get page "created_time" (VStr "") ;;
   names <- keys properties ;;
   props <- rfold (parse_step properties) names [] ;;
   Ok (VDict [("id", id); ("url", url); ("created", created);
              ("properties", VDict props)]))%res.

(** [create_notion_context(data_summary)] *)
Definition create_notion_context (data_summary : value) : string :=
  let context_parts :=
    match data_summary with
    | VDict d =>
        fold_left
          (fun parts kv =>
             List.app parts [fst kv ++ ": " ++ dumps_indent 2 (snd kv)])
          d []
    | _ => [str data_summary]
    end in
  String.concat (chr newline) context_parts.

(** ** The remote API and the request log *)

Record request : Type := mk_request {
  req_url : string;
  req_headers : value;
  req_json : value
}.

(** What [requests.post] hands back: the status code and the outcome of
    [response.json()]. *)
Record response : Type := mk_response {
  status_code : Z;
  json : res value
}.

(** The remote side of one run: the responses still to come, in order, and
    the requests sent so far, oldest first. Every call of [requests.post] is
    answered by the next response of the script; a transport error raised by
    [requests.post] itself is not part of the model. *)
Record world : Type := mk_world {
  inbox : list response;
  outbox : list request
}.

(** A run either completes, raises, or is left waiting for a response the
    script does not contain; each outcome comes with the world it leaves. *)
Inductive outcome (A : Type) : Type :=
| Done (a : A) (w : world)
| Raised (e : exn) (w : world)
| Starved (w : world).
Arguments Done {A} a w.
Arguments Raised {A} e w.
Arguments Starved {A} w.

Definition final {A} (o : outcome A) : world :=
  match o with
  | Done _ w | Raised _ w | Starved w => w
  end.

Definition M (A : Type) : Type := world -> outcome A.

Definition ret {A} (a : A) : M A := fun w => Done a w.

Definition bind {A B} (m : M A) (k : A -> M B) : M B :=
  fun w =>
    match m w with
    | Done a w' => k a w'
    | Raised e w' => Raised e w'
    | Starved w' => Starved w'
    end.

Definition lift {A} (r : res A) : M A :=
  fun w => match r with Ok a => Done a w | Raise e => Raised e w end.

(** [try: m except Exception as e: h e] *)
Definition try_except {A} (m : M A) (h : exn -> M A) : M A :=
  fun w =>
    match m w with
    | Raised e w' => h e w'
    | o => o
    end.

(** [for x in l: s = body s x] *)
Fixpoint for_each {A S} (l : list A) (s : S) (body : S -> A -> M S) : M S :=
  match l with
  | [] => ret s
  | x :: r => bind (body s x) (fun s' => for_each r s' body)
  end.

Declare Scope run_scope.
Delimit Scope run_scope with run.
Notation "x <- e ;; k" := (bind e (fun x => k))
  (at level 61, e at next level, right associativity) : run_scope.

(** ** The application *)

Section App.

(** Process configuration, read from the environment at start-up. *)
Variable NOTION_TOKEN : option string.
Variable DATABASE_IDS : list string.
Variable GEMINI_API_KEY : option string.

(** Library calls whose results come from outside the program:
    [(datetime.now() - timedelta(days=days)).isoformat()], the set-up of the
    generation client ([genai.configure], [genai.GenerativeModel]) and
    [model.generate_content(prompt).text]. *)
Variable cutoff_date_for : Z -> res string.
Variable genai_model : res unit.
Variable generate_content : string -> res string.

Definition NOTION_VERSION : string := "2022-06-28".

Definition format_opt (o : option string) : string :=
  match o with
  | Some s => s
  | None => "None"
  end.

Definition headers : value :=
  VDict [("Authorization", VStr ("Bearer " ++ format_opt NOTION_TOKEN));
         ("Content-Type", VStr "application/json");
         ("Notion-Version", VStr NOTION_VERSION)].

Definition query_url (database_id : string) : string :=
  "https://api.notion.com/v1/databases/" ++ database_id ++ "/query".

(** The request sent when the loop variable [next_cursor] holds [c]. *)
Definition query_request (database_id : string) (next_cursor : value) : request :=
  let payload := if truthy next_cursor then [("start_cursor", next_cursor)] else [] in
  mk_request (query_url database_id) headers (VDict payload).

(** The status-200 branch of the loop body: the new values of
    [all_results], [has_more] and [next_cursor]. *)
Definition read_page (r : response) (all_results : list value)
  : res (list value * value * value) :=
  (data <- json r ;;
   results <- get data "results" (VList []) ;;
   new <- iter results ;;
   has_more <- get data "has_more" (VBool false) ;;
   next_cursor <- get data "next_cursor" VNone ;;
   Ok ((all_results ++ new)%list, has_more, next_cursor))%res.

(** The [while has_more] loop of [get_all_database_entries]; each iteration
    consumes one response of the script. *)
Fixpoint fetch_loop (database_id : string) (inbox : list response)
  (outbox : list request) (all_results : list value)
  (has_more next_cursor : value) {struct inbox} : outcome (list value) :=
  if truthy has_more then
    let outbox' := (outbox ++ [query_request database_id next_cursor])%list in
    match inbox with
    | [] => Starved (mk_world [] outbox')
    | r :: inbox' =>
        if (status_code r =? 200)%Z then
          match read_page r all_results with
          | Ok (all_results', has_more', next_cursor') =>
              fetch_loop database_id inbox' outbox' all_results' has_more' next_cursor'
          | Raise e => Raised e (mk_world inbox' outbox')
          end
        else Done all_results (mk_world inbox' outbox')
    end
  else Done all_results (mk_world inbox outbox).

(** [get_all_database_entries(database_id)] *)
Definition get_all_database_entries (database_id : string) : M (list value) :=
  fun w => fetch_loop database_id (inbox w) (outbox w) [] (VBool true) VNone.

(** The body of the loop over [entries] in [search_databases]. *)
Definition search_step (keyword db_id : string) (results : list value)
  (entry : value) : res (list value) :=
  (parsed <- parse_notion_page entry ;;
   props <- getitem parsed "properties" ;;
   let entry_text := lower (dumps props) in
   if contains (lower keyword) entry_text
   then Ok (results ++ [VDict [("database_id", VStr db_id); ("entry", parsed)]])%list
   else Ok results)%res.

(** [search_databases(keyword)] *)
Definition search_databases (keyword : string) : M (list value) :=
  for_each DATABASE_IDS []
    (fun results db_id =>
       (entries <- get_all_database_entries db_id ;;
        lift (rfold (search_step keyword db_id) entries results))%run).

(** The body of the loop over [entries] in [get_recent_entries]. *)
Definition recent_step (cutoff_date : string) (recent_entries : list value)
  (entry : value) : res (list value) :=
  (created <- get entry "created_time" (VStr "") ;;
   keep <- ge created cutoff_date ;;
   if keep
   then (parsed <- parse_notion_page entry ;; Ok (recent_entries ++ [parsed])%list)
   else Ok recent_entries)%res.

(** [get_recent_entries(days)]; the result is the [recent] dict. *)
Definition get_recent_entries (days : Z) : M (list (string * value)) :=
  (cutoff_date <- lift (cutoff_date_for days) ;;
   for_each DATABASE_IDS []
     (fun recent db_id =>
        entries <- get_all_database_entries db_id ;;
        recent_entries <- lift (rfold (recent_step cutoff_date) entries []) ;;
        ret (match recent_entries with
             | [] => recent
             | _ => dict_set recent db_id (VList recent_entries)
             end)))%run.

(** ** Route handlers *)

Record flask_request : Type := mk_flask_request {
  method : string;
  args : list (string * string);
  get_json : res value
}.

Record http_response : Type := mk_http_response {
  resp_body : value;
  resp_status : Z
}.

Definition jsonify (d : list (string * value)) (status : Z) : http_response :=
  mk_http_response (VDict d) status.

(** [request.args.get(name, default)] *)
Fixpoint args_get (a : list (string * string)) (name default : string) : string :=
  match a with
  | [] => default
  | (k, v) :: r => if (k =? name) then v else args_get r name default
  end.

Definition error_500 (e : exn) : M http_response :=
  ret (jsonify [("error", VStr (str_exn e))] 500).

(** [GET /search] *)
Definition search (req : flask_request) : M http_response :=
  let keyword := args_get (args req) "keyword" "" in
  if negb (truthy (VStr keyword)) then
    ret (jsonify [("error", VStr "Please provide a 'keyword' parameter")] 400)
  else
    try_except
      (results <- search_databases keyword ;;
       ret (jsonify [("keyword", VStr keyword);
                     ("matches", VInt (Z.of_nat (List.length results)));
                     ("results", VList (firstn 10 results))] 200))%run
      error_500.

Definition line_break : string := chr newline.

Definition system_prompt : string :=
  "You are an AI assistant with access to Hollywood intelligence data. "
  ++ line_break ++
  "Provide accurate, helpful answers about entertainment news, talent, and industry updates."
  ++ line_break ++
  "Focus on brand partnerships, PR opportunities, awards season coverage, and strategic insights.".

Definition search_keywords : list string :=
  ["search"; "find"; "recent"; "latest"; "show me"; "what"].

Definition is_search_word (word : string) : bool :=
  existsb (String.eqb (lower word)) ["search"; "find"; "about"].

(** The loop over [enumerate(words)]: [words] is the part of the list from
    index [i] on, so [i + 1 < len(words)] says that a next word exists. *)
Fixpoint scan_words (words : list string) : M string :=
  match words with
  | [] => ret ""
  | word :: rest =>
      match rest with
      | search_term :: _ =>
          if is_search_word word then
            (search_results <- search_databases search_term ;;
             ret (line_break ++ line_break ++ "Search results for '" ++ search_term
                  ++ "':" ++ line_break
                  ++ create_notion_context (VList (firstn 5 search_results))))%run
          else scan_words rest
      | [] => scan_words rest
      end
  end.

(** The part of [chat] that computes [notion_context] from the message. *)
Definition chat_context (user_message : string) : M string :=
  let lowered := lower user_message in
  let should_fetch_data := existsb (fun keyword => contains keyword lowered) search_keywords in
  if should_fetch_data then
    if contains "recent" lowered || contains "latest" lowered then
      let days := if contains "week" lowered then 7%Z
                  else if contains "month" lowered then 30%Z else 7%Z in
      (notion_data <- get_recent_entries days ;;
       ret (line_break ++ line_break ++ "Recent data (last " ++ str_int days
            ++ " days):" ++ line_break
            ++ create_notion_context (VDict notion_data)))%run
    else scan_words (split user_message)
  else ret "".

(** [not GEMINI_API_KEY] *)
Definition key_missing : bool :=
  match GEMINI_API_KEY with
  | None => true
  | Some k => negb (truthy (VStr k))
  end.

(** The end of the [try] block of [chat]: build the prompt, generate and
    answer. *)
Definition finish_chat (message notion_context : string) : M http_response :=
  let full_prompt :=
    system_prompt ++ line_break ++ line_break ++ notion_context
    ++ line_break ++ line_break ++ "User: " ++ message
    ++ line_break ++ line_break ++ "Assistant:" in
  (text <- lift (generate_content full_prompt) ;;
   ret (jsonify [("message", VStr message);
                 ("response", VStr text);
                 ("used_notion_data", VBool (truthy (VStr notion_context)))] 200))%run.

(** The [try] block of [chat]; a message that is not a string has no
    [lower]. *)
Definition chat_reply (user_message : value) : M http_response :=
  (_ <- lift genai_model ;;
   match user_message with
   | VStr message =>
       notion_context <- chat_context message ;;
       finish_chat message notion_context
   | _ => lift (Raise (no_attribute user_message "lower"))
   end)%run.

(** [POST /chat] (and its [OPTIONS] preflight) *)
Definition chat (req : flask_request) : M http_response :=
  if (method req =? "OPTIONS") then ret (mk_http_response (VStr "") 204)
  else if key_missing then
    ret (jsonify [("error", VStr "GEMINI_API_KEY not configured")] 500)
  else
    (data <- lift (get_json req) ;;
     no_message <- lift (if negb (truthy data) then Ok true
                         else (found <- member "message" data ;; Ok (negb found))%res) ;;
     if (no_message : bool) then
       ret (jsonify [("error", VStr "Please provide a 'message' in JSON body")] 400)
     else
       user_message <- lift (getitem data "message") ;;
       try_except (chat_reply user_message) error_500)%run.

(** What the framework does with an exception that leaves a handler. *)
Definition dispatch (handler : M http_response) : M http_response :=
  try_except handler
    (fun e =>
       match e with
       | HTTPException status msg => ret (mk_http_response (VStr msg) status)
       | _ => ret (mk_http_response (VStr "Internal Server Error") 500)
       end).

(** ** The remaining helper and routes *)

(** [get_all_data()]; the result is the [all_data] dict. *)
Definition get_all_data : M (list (string * value)) :=
  for_each (enumerate 1 DATABASE_IDS) []
    (fun all_data numbered =>
       let i := fst numbered in
       let db_id := snd numbered in
       (entries <- get_all_database_entries db_id ;;
        parsed_entries <- lift (rmap parse_notion_page entries) ;;
        ret (dict_set all_data ("database_" ++ str_int i)
               (VDict [("database_id", VStr db_id);
                       ("entries", VList parsed_entries);
                       ("count", VInt (Z.of_nat (List.length parsed_entries)))])))%run).

(** [sum(db['count'] for db in data.values())] *)
Definition sum_counts (data : list (string * value)) : res Z :=
  rfold (fun acc db => (count <- getitem db "count" ;; add acc count)%res)
    (map snd data) 0%Z.

(** [GEMINI_API_KEY is not None] *)
Definition key_present : bool :=
  match GEMINI_API_KEY with
  | Some _ => true
  | None => false
  end.

(** [GET /status] *)
Definition status : M http_response :=
  try_except
    (data <- get_all_data ;;
     total_entries <- lift (sum_counts data) ;;
     ret (jsonify [("status", VStr "success");
                   ("notion_connected", VBool true);
                   ("gemini_configured", VBool key_present);
                   ("databases", VInt (Z.of_nat (List.length data)));
                   ("total_entries", VInt total_entries)] 200))%run
    (fun e => ret (jsonify [("status", VStr "error");
                            ("message", VStr (str_exn e))] 500)).

(** [int(s)] on a query-string value, [None] when it raises [ValueError]. *)
Variable int_of_str : string -> option Z.

(** [request.args.get(name, default, type=int)]: a value that does not
    convert gives the default. *)
Fixpoint args_get_int (a : list (string * string)) (name : string) (default : Z) : Z :=
  match a with
  | [] => default
  | (k, v) :: r =>
      if (k =? name)
      then match int_of_str v with Some n => n | None => default end
      else args_get_int r name default
  end.

(** [sum(len(entries) for entries in recent_news.values())] *)
Definition sum_lengths (recent_news : list (string * value)) : res Z :=
  rfold (fun acc entries => (n <- len entries ;; Ok (acc + n)%Z)%res)
    (map snd recent_news) 0%Z.

(** [{db_id: len(entries) for db_id, entries in recent_news.items()}] *)
Definition count_by_database (recent_news : list (string * value))
  : res (list (string * value)) :=
  rfold (fun acc kv => (n <- len (snd kv) ;; Ok (dict_set acc (fst kv) (VInt n)))%res)
    recent_news [].

(** [GET /recent] *)
Definition recent (req : flask_request) : M http_response :=
  let days := args_get_int (args req) "days" 7 in
  try_except
    (recent_news <- get_recent_entries days ;;
     total <- lift (sum_lengths recent_news) ;;
     by_database <- lift (count_by_database recent_news) ;;
     ret (jsonify [("days", VInt days);
                   ("total_entries", VInt total);
                   ("by_database", VDict by_database);
                   ("data", VDict recent_news)] 200))%run
    error_500.

(** ** Specification vocabulary *)

(** The value stored in [d] under [k], the empty string when there is none. *)
Definition field (d : list (string * value)) (k : string) : value :=
  match dict_get d k with
  | Some x => x
  | None => VStr ""
  end.

(** *** The documented table of the Property Normalizer *)

Definition is_object (v : value) : bool :=
  match v with
  | VDict _ => true
  | _ => false
  end.

Definition is_text (v : value) : bool :=
  match v with
  | VStr _ => true
  | _ => false
  end.

(** The string [v] is, the empty string when it is none. *)
Definition text_of (v : value) : string :=
  match v with
  | VStr s => s
  | _ => ""
  end.

(** The elements of the list [v], none when it is no list. *)
Definition items_of (v : value) : list value :=
  match v with
  | VList l => l
  | _ => []
  end.

(** The field [k] of the object [o], the empty string when [o] has none or
    is no object. *)
Definition attr (k : string) (o : value) : value :=
  match o with
  | VDict d => field d k
  | _ => VStr ""
  end.

(** The content of the payload [p] under [k], [default] when there is
    none. *)
Definition content (p : list (string * value)) (k : string) (default : value)
  : value :=
  match dict_get p k with
  | Some v => v
  | None => default
  end.

(** The type-tag of a payload, the empty string when it has none. *)
Definition type_tag (p : list (string * value)) : string :=
  text_of (content p "type" VNone).

(** The table, row by row: the plain text of the first text run of a title
    (the empty string for no run); the plain texts of the runs of a rich
    text joined by one space; the raw url; the start of a date and the name
    of a select option (the empty string when absent); the names of the
    options of a multi-select; null for any other tag and for no tag. *)
Definition documented (p : list (string * value)) : value :=
  let tag := type_tag p in
  if (tag =? "title") then
    match items_of (content p "title" (VList [])) with
    | [] => VStr ""
    | run :: _ => attr "plain_text" run
    end
  else if (tag =? "rich_text") then
    VStr (String.concat " "
            (map (fun run => text_of (attr "plain_text" run))
               (items_of (content p "rich_text" (VList [])))))
  else if (tag =? "url") then field p "url"
  else if (tag =? "date") then attr "start" (content p "date" (VDict []))
  else if (tag =? "select") then attr "name" (content p "select" (VDict []))
  else if (tag =? "multi_select") then
    VList (map (attr "name") (items_of (content p "multi_select" (VList []))))
  else VNone.

(** The content of a title is falsy, or a list that starts with an object. *)
Definition shaped_first (v : value) : bool :=
  negb (truthy v) ||
  match v with
  | VList (VDict _ :: _) => true
  | _ => false
  end.

(** The content is a list of objects (whose field [k] is a string, when
    [texts] is set), or an empty string or object. *)
Definition shaped_items (texts : bool) (k : string) (v : value) : bool :=
  match v with
  | VList l =>
      forallb is_object l &&
      (if texts then forallb is_text (map (attr k) l) else true)
  | VStr EmptyString => true
  | VDict [] => true
  | _ => false
  end.

(** The content of a date or a select is falsy or an object. *)
Definition shaped_object (v : value) : bool := negb (truthy v) || is_object v.

(** The content of the payload has the shape its type-tag announces; a
    payload with another tag, or none, has nothing to satisfy. *)
Definition shaped (p : list (string * value)) : bool :=
  let tag := type_tag p in
  if (tag =? "title") then shaped_first (content p "title" (VList []))
  else if (tag =? "rich_text") then
    shaped_items true "plain_text" (content p "rich_text" (VList []))
  else if (tag =? "url") then true
  else if (tag =? "date") then shaped_object (content p "date" (VDict []))
  else if (tag =? "select") then shaped_object (content p "select" (VDict []))
  else if (tag =? "multi_select") then
    shaped_items false "name" (content p "multi_select" (VList []))
  else true.

(** The table as documented: every payload gets its row's value. *)
Definition normalizer_rule (ps : list (string * value)) (name : string) : Prop :=
  forall p,
    dict_get ps name = Some (VDict p) ->
    get_property_value (VDict ps) name = Ok (documented p).

(** *** Pages of the remote API *)

Definition succeeded (r : response) : bool := (status_code r =? 200)%Z.

(** The [results] array of a page. *)
Definition page_records (r : response) : list value :=
  match json r with
  | Ok (VDict d) =>
      match dict_get d "results" with
      | Some (VList l) => l
      | _ => []
      end
  | _ => []
  end.

(** The [has_more] flag of a page, false when the page has none. *)
Definition page_flag (r : response) : value :=
  match json r with
  | Ok (VDict d) =>
      match dict_get d "has_more" with
      | Some b => b
      | None => VBool false
      end
  | _ => VBool false
  end.

(** The [next_cursor] a page returns, null when the page has none. *)
Definition cursor_of (r : response) : value :=
  match json r with
  | Ok (VDict d) =>
      match dict_get d "next_cursor" with
      | Some c => c
      | None => VNone
      end
  | _ => VNone
  end.

(** The body is a JSON object whose [results], when present, is an array. *)
Definition well_formed (r : response) : bool :=
  match json r with
  | Ok (VDict d) =>
      match dict_get d "results" with
      | None | Some (VList _) => true
      | _ => false
      end
  | _ => false
  end.

(** A successful page that reports more data. *)
Definition continues (r : response) : bool :=
  succeeded r && well_formed r && truthy (page_flag r).

(** A failing page, or a successful page that reports no more data. *)
Definition stops (r : response) : bool :=
  negb (succeeded r) || (well_formed r && negb (truthy (page_flag r))).

(** A status-200 page that reports more data. *)
Definition reports_more (r : response) : bool :=
  succeeded r && truthy (page_flag r).

(** The fetcher as documented, on any script of responses: the loop reads
    the pages that report more data and the first page that fails or reports
    none, and returns the records of the status-200 pages among them, in page
    order, raising nothing; a script on which no page stops the loop leaves
    the fetcher waiting at its end. *)
Definition fetch_rule (database_id : string) (script : list response) : Prop :=
  (exists pages last rest sent,
     script = (pages ++ last :: rest)%list /\
     forallb reports_more pages = true /\
     reports_more last = false /\
     get_all_database_entries database_id (mk_world script [])
     = Done (flat_map page_records (filter succeeded (pages ++ [last])%list))
         (mk_world rest sent)) \/
  (exists sent,
     forallb reports_more script = true /\
     get_all_database_entries database_id (mk_world script [])
     = Starved (mk_world [] sent)).

Definition carries_no_cursor (q : request) : Prop := req_json q = VDict [].

Definition carries_cursor (q : request) (c : value) : Prop :=
  req_json q = VDict [("start_cursor", c)].

(** The cursor protocol as documented: the first request has no cursor and
    request [i + 1] carries the cursor returned by response [i]. *)
Definition cursor_protocol (script : list response) (sent : list request) : Prop :=
  (forall q, nth_error sent 0 = Some q -> carries_no_cursor q) /\
  (forall i q r,
     nth_error sent (S i) = Some q -> nth_error script i = Some r ->
     carries_cursor q (cursor_of r)).

(** The cursor protocol as implemented: a cursor is passed on only when it
    is truthy. *)
Definition guarded_cursor_protocol (script : list response) (sent : list request)
  : Prop :=
  (forall q, nth_error sent 0 = Some q -> carries_no_cursor q) /\
  (forall i q r,
     nth_error sent (S i) = Some q -> nth_error script i = Some r ->
     if truthy (cursor_of r) then carries_cursor q (cursor_of r)
     else carries_no_cursor q).

(** *** Collections *)

(** Fetch every collection of [dbs] in turn, keeping the records of each
    under its id. *)
Definition fetch_each (dbs : list string) : M (list (string * list value)) :=
  for_each dbs []
    (fun groups db_id =>
       (entries <- get_all_database_entries db_id ;;
        ret (groups ++ [(db_id, entries)])%list)%run).

(** [fetched dbs w groups w']: fetching the collections [dbs] one after the
    other from [w] returns the record lists [groups] and leaves [w']. *)
Inductive fetched : list string -> world -> list (string * list value) -> world -> Prop :=
| fetched_nil w : fetched [] w [] w
| fetched_cons db dbs w entries w1 groups w2 :
    get_all_database_entries db w = Done entries w1 ->
    fetched dbs w1 groups w2 ->
    fetched (db :: dbs) w ((db, entries) :: groups) w2.

(** Apply [f] to the records of every collection. *)
Definition in_each_group (f : list value -> res (list value))
  (groups : list (string * list value)) : res (list (string * list value)) :=
  rmap (fun g => (out <- f (snd g) ;; Ok (fst g, out))%res) groups.

(** *** Keyword search *)

(** [keyword], lower-cased, occurs in the lower-cased JSON text of the
    record's [properties]. *)
Definition matches (keyword : string) (parsed : value) : bool :=
  match getitem parsed "properties" with
  | Ok props => contains (lower keyword) (lower (dumps props))
  | Raise _ => false
  end.

Definition search_hit (db_id : string) (parsed : value) : value :=
  VDict [("database_id", VStr db_id); ("entry", parsed)].

Definition hits_of (keyword : string) (group : string * list value) : list value :=
  map (search_hit (fst group)) (filter (matches keyword) (snd group)).

(** *** Recency window *)

(** The raw creation timestamp of a record, when it is a string (the empty
    string when the record has none). *)
Definition timestamp (entry : value) : option string :=
  match entry with
  | VDict d =>
      match dict_get d "created_time" with
      | Some (VStr s) => Some s
      | None => Some ""
      | _ => None
      end
  | _ => None
  end.

Definition timestamped (entry : value) : bool :=
  match timestamp entry with
  | Some _ => true
  | None => false
  end.

(** [cutoff <= created_time] in the lexicographic order of strings. *)
Definition qualifies (cutoff : string) (entry : value) : bool :=
  match timestamp entry with
  | Some s => String.leb cutoff s
  | None => false
  end.

(** The parsed records of the entries that qualify. *)
Definition kept_records (cutoff : string) (entries : list value) : res (list value) :=
  rmap parse_notion_page (filter (qualifies cutoff) entries).

(** The [recent] mapping after the buckets [(db_id, kept)] were stored in
    turn, empty ones being skipped. *)
Definition store_buckets (buckets : list (string * list value))
  (recent : list (string * value)) : list (string * value) :=
  fold_left
    (fun recent b =>
       match snd b with
       | [] => recent
       | _ => dict_set recent (fst b) (VList (snd b))
       end)
    buckets recent.

(** *** Routes *)

(** The first value of the query parameter [keyword], if any. *)
Definition keyword_param (req : flask_request) : option string :=
  option_map snd (find (fun kv => fst kv =? "keyword") (args req)).

Definition keyword_required : http_response :=
  jsonify [("error", VStr "Please provide a 'keyword' parameter")] 400.

Definition message_required : http_response :=
  jsonify [("error", VStr "Please provide a 'message' in JSON body")] 400.

Definition key_not_configured : http_response :=
  jsonify [("error", VStr "GEMINI_API_KEY not configured")] 500.

(** The keyword search on [search_term] and the context text built from its
    first five hits. *)
Definition search_context (search_term : string) : M string :=
  (search_results <- search_databases search_term ;;
   ret (line_break ++ line_break ++ "Search results for '" ++ search_term
        ++ "':" ++ line_break
        ++ create_notion_context (VList (firstn 5 search_results))))%run.

(** [word] is followed by [term] and is the first search word of [words]. *)
Definition first_search_word (words : list string) (word term : string) : Prop :=
  exists pre post,
    words = (pre ++ word :: term :: post)%list /\
    forallb (fun x => negb (is_search_word x)) pre = true /\
    is_search_word word = true.

Definition mentions_recency (message : string) : bool :=
  contains "recent" (lower message) || contains "latest" (lower message).

(** The documented trigger of the keyword search: without "recent" or
    "latest", a search word followed by a token starts the search on that
    token. *)
Definition keyword_search_rule (message : string) : Prop :=
  mentions_recency message = false ->
  forall word term,
    first_search_word (split message) word term ->
    chat_context message = search_context term.

(** The words that open the data lookup of [chat], apart from "recent" and
    "latest". *)
Definition asks_for_data (message : string) : bool :=
  existsb (fun k => contains k (lower message)) ["search"; "find"; "show me"; "what"].

(** [a] occurs in [s]. *)
Definition substr (a s : string) : Prop := exists p q, s = p ++ a ++ q.

(** *** Further vocabulary *)

(** The body of the page is not a JSON object. *)
Definition unreadable (r : response) : bool :=
  match json r with
  | Ok (VDict _) => false
  | _ => true
  end.

(** The request goes to the query URL of collection [db] with the
    configured headers. *)
Definition to_collection (db : string) (q : request) : Prop :=
  req_url q = query_url db /\ req_headers q = headers.

(** The run was left waiting for a response. *)
Definition starved {A} (o : outcome A) : bool :=
  match o with
  | Starved _ => true
  | _ => false
  end.

(** The properties of [raw] with their normalized values, in the order of
    the raw record. *)
Definition normalized (raw : list (string * value)) : res (list (string * value)) :=
  rmap (fun k => (v <- get_property_value (VDict raw) k ;; Ok (k, v))%res)
    (dict_keys raw).

Definition truthy_entry (kv : string * value) : bool := truthy (snd kv).

(** Printable ASCII other than the double quote and the backslash: the
    characters [json.dumps] copies unchanged. *)
Definition plain_char (c : ascii) : bool :=
  let n := code c in
  ((32 <=? n) && (n <=? 126) && negb (n =? 34) && negb (n =? 92))%N.

Fixpoint plain (s : string) : bool :=
  match s with
  | EmptyString => true
  | String c r => plain_char c && plain r
  end.

(** [t] is a property name, a string value or an element of a list value
    of [props]. *)
Definition mentions (props : list (string * value)) (t : string) : Prop :=
  exists k v,
    In (k, v) props /\
    (t = k \/ v = VStr t \/ exists l, v = VList l /\ In (VStr t) l).

Definition ascii_char (c : ascii) : bool := (code c <? 128)%N.

(** Every character of [s] is ASCII. *)
Fixpoint ascii_only (s : string) : bool :=
  match s with
  | EmptyString => true
  | String c r => ascii_char c && ascii_only r
  end.

(** A non-empty list. *)
Definition is_bucket (v : value) : bool :=
  match v with
  | VList (_ :: _) => true
  | _ => false
  end.

Definition bucket_size (v : value) : nat :=
  match v with
  | VList l => List.length l
  | _ => 0
  end.

(** Distinct keys among the configured ids, each with a non-empty list. *)
Definition good_buckets (recent : list (string * value)) : Prop :=
  Forall (fun kv => is_bucket (snd kv) = true /\ In (fst kv) DATABASE_IDS) recent /\
  NoDup (dict_keys recent).

(** The entry of [get_all_data] for the collection numbered [i] with the
    parsed records [snd g]. *)
Definition all_data_entry (i : Z) (g : string * list value) : string * value :=
  ("database_" ++ str_int i,
   VDict [("database_id", VStr (fst g));
          ("entries", VList (snd g));
          ("count", VInt (Z.of_nat (List.length (snd g))))]).

Definition all_data_of (start : Z) (parsed_groups : list (string * list value))
  : list (string * value) :=
  map (fun numbered => all_data_entry (fst numbered) (snd numbered))
    (enumerate start parsed_groups).

(** The number of records in [groups]. *)
Definition total_records (groups : list (string * list value)) : nat :=
  list_sum (map (fun g => List.length (snd g)) groups).

Definition status_success (count : Z) : http_response :=
  jsonify [("status", VStr "success");
           ("notion_connected", VBool true);
           ("gemini_configured", VBool key_present);
           ("databases", VInt (Z.of_nat (List.length DATABASE_IDS)));
           ("total_entries", VInt count)] 200.

(** Every key of [acc] is [database_j] for some [j] below [i]. *)
Definition numbered_below (i : Z) (acc : list (string * value)) : Prop :=
  forall k, In k (dict_keys acc) -> exists j, (j < i)%Z /\ k = "database_" ++ str_int j.

(** The recency query over [days] days and the context text built from its
    result. *)
Definition recent_context (days : Z) : M string :=
  (notion_data <- get_recent_entries days ;;
   ret (line_break ++ line_break ++ "Recent data (last " ++ str_int days
        ++ " days):" ++ line_break
        ++ create_notion_context (VDict notion_data)))%run.

(** The day count [chat] reads off a message. *)
Definition inferred_days (message : string) : Z :=
  if contains "week" (lower message) then 7%Z
  else if contains "month" (lower message) then 30%Z
  else 7%Z.

(** The run ended with an exception. *)
Definition raised {A} (o : outcome A) : bool :=
  match o with
  | Raised _ _ => true
  | _ => false
  end.

(** No character of [s] is whitespace. *)
Fixpoint spaceless (s : string) : bool :=
  match s with
  | EmptyString => true
  | String c r => negb (is_space c) && spaceless r
  end.

(** *** Pretty-printed JSON *)

(** Two more spaces in front of every line. *)
Definition indented (ls : list string) : list string :=
  map (fun l => "  " ++ l) ls.

(** [suffix] at the end of the last line. *)
Fixpoint followed (ls : list string) (suffix : string) : list string :=
  match ls with
  | [] => []
  | [l] => [l ++ suffix]
  | l :: r => l :: followed r suffix
  end.

(** [label] in front of the first line. *)
Definition labelled (label : string) (ls : list string) : list string :=
  match ls with
  | [] => []
  | l :: r => (label ++ l) :: r
  end.

(** The members of an array or object, each given by its lines: every
    member starts on a line of its own, indented by two spaces, and every
    member but the last is followed by a comma. *)
Fixpoint members (blocks : list (list string)) : list string :=
  match blocks with
  | [] => []
  | [b] => indented b
  | b :: r => (indented (followed b ",") ++ members r)%list
  end.

(** The lines of the pretty-printed JSON text of a value: a scalar is one
    line; an empty array or object is [[]] or [{}] on one line; any other
    array or object is an opening bracket, its members, and the closing
    bracket, an object member being its key as a JSON string, a colon and a
    space in front of its value. *)
Fixpoint pretty_lines (v : value) : list string :=
  match v with
  | VNone => ["null"]
  | VBool true => ["true"]
  | VBool false => ["false"]
  | VInt n => [str_int n]
  | VStr s => [json_str s]
  | VList [] => ["[]"]
  | VList l => ("[" :: members (map pretty_lines l) ++ ["]"])%list
  | VDict [] => ["{}"]
  | VDict d =>
      ("{" :: members (map (fun kv => labelled (json_str (fst kv) ++ ": ")
                                        (pretty_lines (snd kv))) d)
           ++ ["}"])%list
  end.

(** The pretty-printed JSON text of a value. *)
Definition pretty (v : value) : string :=
  String.concat (chr newline) (pretty_lines v).

(** ** Sample data: two collections, three records, three pages *)

Definition text_run (s : string) : value :=
  VDict [("type", VStr "text"); ("plain_text", VStr s)].

Definition option_named (s : string) : value :=
  VDict [("id", VStr "opt"); ("name", VStr s)].

Definition awards_payload : list (string * value) :=
  [("type", VStr "rich_text");
   ("rich_text", VList [text_run "Best"; text_run "Picture"])].

(** A rich text whose content is null. *)
Definition null_rich_text : list (string * value) :=
  [("type", VStr "rich_text"); ("rich_text", VNone)].

Definition properties_a : list (string * value) :=
  [("Name", VDict [("type", VStr "title"); ("title", VList [text_run "A"])]);
   ("Awards", VDict awards_payload);
   ("Tags", VDict [("type", VStr "multi_select"); ("multi_select", VList [])]);
   ("Link", VDict [("type", VStr "url"); ("url", VNone)]);
   ("Score", VDict [("type", VStr "number"); ("number", VInt 3)])].

Definition record_a : value :=
  VDict [("id", VStr "a"); ("url", VStr "https://www.notion.so/a");
         ("created_time", VStr "2024-01-01T00:00:00.000Z");
         ("properties", VDict properties_a)].

Definition parsed_a : value :=
  VDict [("id", VStr "a"); ("url", VStr "https://www.notion.so/a");
         ("created", VStr "2024-01-01T00:00:00.000Z");
         ("properties", VDict [("Name", VStr "A"); ("Awards", VStr "Best Picture")])].

Definition record_b : value :=
  VDict [("id", VStr "b"); ("url", VStr "https://www.notion.so/b");
         ("created_time", VStr "2025-06-01T09:30:00.000Z");
         ("properties",
          VDict [("Name", VDict [("type", VStr "title"); ("title", VList [text_run "B"])]);
                 ("Released", VDict [("type", VStr "date");
                                     ("date", VDict [("start", VStr "2025-05-30")])]);
                 ("Genre", VDict [("type", VStr "select");
                                  ("select", option_named "Drama")]);
                 ("Tags", VDict [("type", VStr "multi_select");
                                 ("multi_select",
                                  VList [option_named "Indie"; option_named "Festival"])]);
                 ("Studio", VDict [("type", VStr "select"); ("select", VNone)])])].

Definition parsed_b : value :=
  VDict [("id", VStr "b"); ("url", VStr "https://www.notion.so/b");
         ("created", VStr "2025-06-01T09:30:00.000Z");
         ("properties",
          VDict [("Name", VStr "B"); ("Released", VStr "2025-05-30");
                 ("Genre", VStr "Drama");
                 ("Tags", VList [VStr "Indie"; VStr "Festival"])])].

Definition record_c : value :=
  VDict [("id", VStr "c"); ("url", VStr "https://www.notion.so/c");
         ("created_time", VStr "2023-03-03T08:00:00.000Z");
         ("properties",
          VDict [("Name", VDict [("type", VStr "title");
                                 ("title", VList [text_run "The BEST of C"])])])].

Definition parsed_c : value :=
  VDict [("id", VStr "c"); ("url", VStr "https://www.notion.so/c");
         ("created", VStr "2023-03-03T08:00:00.000Z");
         ("properties", VDict [("Name", VStr "The BEST of C")])].

Definition page_1 : response :=
  mk_response 200
    (Ok (VDict [("results", VList [record_a]); ("has_more", VBool true);
                ("next_cursor", VStr "cursor-1")])).

Definition page_2 : response :=
  mk_response 200
    (Ok (VDict [("results", VList [record_b]); ("has_more", VBool false);
                ("next_cursor", VNone)])).

Definition page_3 : response :=
  mk_response 200
    (Ok (VDict [("results", VList [record_c]); ("has_more", VBool false);
                ("next_cursor", VNone)])).

Definition page_unavailable : response :=
  mk_response 503 (Raise (JSONDecodeError "Expecting value: line 1 column 1 (char 0)")).

(** A page that announces more data but returns an empty cursor. *)
Definition page_empty_cursor : response :=
  mk_response 200
    (Ok (VDict [("results", VList [record_a]); ("has_more", VBool true);
                ("next_cursor", VStr "")])).

Definition sample_token : option string := Some "secret_token".

Definition sample_ids : list string := ["db1"; "db2"].

Definition sample_cutoff (days : Z) : res string :=
  if (days <=? 7)%Z then Ok "2025-05-28T12:00:00.123456"
  else Ok "2025-05-01T12:00:00.123456".

Definition sample_headers : value :=
  VDict [("Authorization", VStr "Bearer secret_token");
         ("Content-Type", VStr "application/json");
         ("Notion-Version", VStr "2022-06-28")].

Definition sample_request (db_id : string) (payload : list (string * value))
  : request :=
  mk_request ("https://api.notion.com/v1/databases/" ++ db_id ++ "/query")
    sample_headers (VDict payload).

Definition sample_world : world := mk_world [page_1; page_2; page_3] [].

Definition sample_world_after : world :=
  mk_world []
    [sample_request "db1" [];
     sample_request "db1" [("start_cursor", VStr "cursor-1")];
     sample_request "db2" []].

Definition sample_groups : list (string * list value) :=
  [("db1", [record_a; record_b]); ("db2", [record_c])].

Definition sample_parsed_groups : list (string * list value) :=
  [("db1", [parsed_a; parsed_b]); ("db2", [parsed_c])].

Definition sample_buckets : list (string * list value) :=
  [("db1", [parsed_b]); ("db2", [])].

Definition post_empty_object : flask_request :=
  mk_flask_request "POST" [] (Ok (VDict [])).

(** *** More sample data *)

Definition page_garbled : response :=
  mk_response 200 (Raise (JSONDecodeError "Expecting value: line 1 column 1 (char 0)")).

Definition record_untimed : value :=
  VDict [("id", VStr "u"); ("created_time", VNone); ("properties", VDict [])].

Definition page_untimed : response :=
  mk_response 200
    (Ok (VDict [("results", VList [record_b; record_untimed]);
                ("has_more", VBool false)])).

Definition fields_a : list (string * value) :=
  [("id", VStr "a"); ("url", VStr "https://www.notion.so/a");
   ("created_time", VStr "2024-01-01T00:00:00.000Z");
   ("properties", VDict properties_a)].

Definition normalized_a : list (string * value) :=
  [("Name", VStr "A"); ("Awards", VStr "Best Picture"); ("Tags", VList []);
   ("Link", VNone); ("Score", VNone)].

Definition keyword_cafe : string := "caf" ++ String (ascii_of_N 233) EmptyString.

Definition sample_int (s : string) : option Z :=
  if (s =? "30") then Some 30%Z
  else if (s =? "7") then Some 7%Z
  else None.

Definition get_recent_month : flask_request :=
  mk_flask_request "GET" [("days", "30")]
    (Raise (HTTPException 415 "Unsupported Media Type")).

Definition post_message (message : string) : flask_request :=
  mk_flask_request "POST" [] (Ok (VDict [("message", VStr message)])).

Definition post_array : flask_request :=
  mk_flask_request "POST" [] (Ok (VList [VStr "message"])).

Definition hello_reply : http_response :=
  jsonify [("message", VStr "hello there"); ("response", VStr "hi");
           ("used_notion_data", VBool false)] 200.

(** A summary of three collections, and a list of search hits. *)
Definition summary_sample : value :=
  VDict [("db1", VList [VDict [("id", VStr "a");
                               ("properties",
                                VDict [("Name", VStr "Dune");
                                       ("Tags", VList [VStr "x"; VStr "y"])]);
                               ("count", VInt 2)]]);
         ("db2", VList []);
         ("db3", VDict [])].

Definition quoted (s : string) : string := chr dquote ++ s ++ chr dquote.

Definition summary_sample_text : list string :=
  ["db1: [";
   "  {";
   "    " ++ quoted "id" ++ ": " ++ quoted "a" ++ ",";
   "    " ++ quoted "properties" ++ ": {";
   "      " ++ quoted "Name" ++ ": " ++ quoted "Dune" ++ ",";
   "      " ++ quoted "Tags" ++ ": [";
   "        " ++ quoted "x" ++ ",";
   "        " ++ quoted "y";
   "      ]";
   "    },";
   "    " ++ quoted "count" ++ ": 2";
   "  }";
   "]";
   "db2: []";
   "db3: {}"].

Definition hits_sample : value :=
  VList [VDict [("database_id", VStr "db1");
                ("entry", VDict [("id", VStr "a");
                                 ("properties", VDict [("Name", VStr "Dune")])])];
         VNone; VBool true; VInt 3].

Definition hits_sample_text : string :=
  "[{'database_id': 'db1', 'entry': {'id': 'a', 'properties': {'Name': 'Dune'}}}, None, True, 3]".

(** ** The Python fragment: basic facts *)

Lemma get_field d k : get (VDict d) k (VStr "") = Ok (field d k).
Proof. reflexivity. Qed.

Lemma field_empty k : field [] k = VStr "".
Proof. reflexivity. Qed.

Lemma str_app_nil_r (s : string) : s ++ "" = s.
Proof. induction s as [|c s IH]; simpl; [reflexivity | now rewrite IH]. Qed.

Lemma str_app_assoc (a b c : string) : (a ++ b) ++ c = a ++ (b ++ c).
Proof. induction a as [|x a IH]; simpl; [reflexivity | now rewrite IH]. Qed.

(** Induction on values, through the lists and mappings they hold. *)
Lemma value_nested_ind (P : value -> Prop) :
  P VNone ->
  (forall b, P (VBool b)) ->
  (forall n, P (VInt n)) ->
  (forall s, P (VStr s)) ->
  (forall l, Forall P l -> P (VList l)) ->
  (forall d, Forall (fun kv => P (snd kv)) d -> P (VDict d)) ->
  forall v, P v.
Proof.
  intros HNone HBool HInt HStr HList HDict.
  exact (fix F (v : value) : P v :=
           match v with
           | VNone => HNone
           | VBool b => HBool b
           | VInt n => HInt n
           | VStr s => HStr s
           | VList l =>
               HList l
                 ((fix G (l : list value) : Forall P l :=
                     match l with
                     | [] => Forall_nil P
                     | x :: r => Forall_cons x (F x) (G r)
                     end) l)
           | VDict d =>
               HDict d
                 ((fix G (d : list (string * value))
                    : Forall (fun kv => P (snd kv)) d :=
                     match d with
                     | [] => Forall_nil _
                     | kv :: r => Forall_cons kv (F (snd kv)) (G r)
                     end) d)
           end).
Qed.

(** ** Property Normalizer *)

Lemma text_of_eq v s : text_of v = s -> s <> "" -> v = VStr s.
Proof. destruct v; simpl; intros H Hs; congruence. Qed.

Lemma eq_str_text v s : s <> "" -> eq_str v s = (text_of v =? s).
Proof.
  intro Hs. destruct v; simpl; try reflexivity;
    (destruct s; [congruence | reflexivity]).
Qed.

Lemma rmap_get_objects k l :
  forallb is_object l = true ->
  rmap (fun t => get t k (VStr "")) l = Ok (map (attr k) l).
Proof.
  induction l as [|t l IH]; simpl; [reflexivity|].
  intro H. apply andb_true_iff in H. destruct H as [Ht Hl].
  destruct t; try discriminate. simpl. rewrite (IH Hl). reflexivity.
Qed.

Lemma rmap_get_non_object k l :
  forallb is_object l = false ->
  exists e, rmap (fun t => get t k (VStr "")) l = Raise e.
Proof.
  induction l as [|t l IH]; simpl; [discriminate|].
  intro H. destruct t; simpl; eauto.
  simpl in H. destruct (IH H) as (e & ->). simpl. eauto.
Qed.

Lemma expect_strs_texts vs :
  forall i, forallb is_text vs = true -> expect_strs i vs = Ok (map text_of vs).
Proof.
  induction vs as [|v vs IH]; simpl; intros i H; [reflexivity|].
  apply andb_true_iff in H. destruct H as [Hv Hvs].
  destruct v; try discriminate. rewrite (IH _ Hvs). reflexivity.
Qed.

Lemma expect_strs_non_text vs :
  forall i, forallb is_text vs = false -> exists e, expect_strs i vs = Raise e.
Proof.
  induction vs as [|v vs IH]; simpl; intros i H; [discriminate|].
  destruct v; simpl; eauto.
  simpl in H. destruct (IH (S i) H) as (e & ->). simpl. eauto.
Qed.

(** The branch of a title. *)
Lemma title_branch v :
  let r := if truthy v
           then (first <- index0 v ;; get first "plain_text" (VStr ""))%res
           else Ok (VStr "") in
  (shaped_first v = true ->
   r = Ok match items_of v with
          | [] => VStr ""
          | run :: _ => attr "plain_text" run
          end) /\
  (shaped_first v = false -> exists e, r = Raise e).
Proof.
  unfold shaped_first.
  destruct v as [| [] | n | [|c s] | [|x l] | [|kv d]]; simpl;
    try (split; [reflexivity | discriminate]);
    try (split; [discriminate | eauto]).
  - destruct (n =? 0)%Z; simpl; split; try reflexivity; try discriminate; eauto.
  - destruct x; simpl; split; try reflexivity; try discriminate; eauto.
Qed.

(** The branch of a multi-select, and that of a rich text. *)
Lemma multi_select_branch k v :
  let r := (its <- iter v ;;
            names <- rmap (fun item => get item k (VStr "")) its ;;
            Ok (VList names))%res in
  (shaped_items false k v = true -> r = Ok (VList (map (attr k) (items_of v)))) /\
  (shaped_items false k v = false -> exists e, r = Raise e).
Proof.
  unfold shaped_items.
  destruct v as [| b | n | [|c s] | l | [|kv d]]; simpl;
    try (split; [reflexivity | discriminate]);
    try (split; [discriminate | eauto]).
  rewrite andb_true_r. split.
  - intro H. rewrite (rmap_get_objects k l H). reflexivity.
  - intro H. destruct (rmap_get_non_object k l H) as (e & ->). simpl. eauto.
Qed.

Lemma rich_text_branch v :
  let r := (ts <- iter v ;;
            texts <- rmap (fun t => get t "plain_text" (VStr "")) ts ;;
            joined <- join " " texts ;;
            Ok (VStr joined))%res in
  (shaped_items true "plain_text" v = true ->
   r = Ok (VStr (String.concat " "
                   (map (fun run => text_of (attr "plain_text" run)) (items_of v))))) /\
  (shaped_items true "plain_text" v = false -> exists e, r = Raise e).
Proof.
  unfold shaped_items.
  destruct v as [| b | n | [|c s] | l | [|kv d]]; simpl;
    try (split; [reflexivity | discriminate]);
    try (split; [discriminate | eauto]).
  destruct (forallb is_object l) eqn:Hobj; simpl.
  - rewrite (rmap_get_objects "plain_text" l Hobj). simpl. unfold join. split.
    + intro Htext. rewrite (expect_strs_texts _ 0 Htext). simpl.
      rewrite map_map. reflexivity.
    + intro Htext. destruct (expect_strs_non_text _ 0 Htext) as (e & ->).
      simpl. eauto.
  - destruct (rmap_get_non_object "plain_text" l Hobj) as (e & ->). simpl.
    split; [discriminate | eauto].
Qed.

(** The branches of a date and of a select. *)
Lemma object_branch k v :
  let r := if truthy v then get v k (VStr "") else Ok (VStr "") in
  (shaped_object v = true -> r = Ok (attr k v)) /\
  (shaped_object v = false -> exists e, r = Raise e).
Proof.
  unfold shaped_object.
  destruct v as [| [] | n | [|c s] | [|x l] | [|kv d]]; simpl;
    try (split; [reflexivity | discriminate]);
    try (split; [discriminate | eauto]).
  destruct (n =? 0)%Z; simpl; split; try reflexivity; try discriminate; eauto.
Qed.

(** The normalizer on the payload found under a name, as the source has
    it. *)
Lemma get_property_value_payload ps name p :
  dict_get ps name = Some (VDict p) ->
  get_property_value (VDict ps) name
  = (let prop_type := content p "type" VNone in
     if negb (truthy prop_type) then Ok VNone
     else if eq_str prop_type "title" then
       let title_list := content p "title" (VList []) in
       if truthy title_list
       then first <- index0 title_list ;; get first "plain_text" (VStr "")
       else Ok (VStr "")
     else if eq_str prop_type "rich_text" then
       ts <- iter (content p "rich_text" (VList [])) ;;
       texts <- rmap (fun t => get t "plain_text" (VStr "")) ts ;;
       joined <- join " " texts ;;
       Ok (VStr joined)
     else if eq_str prop_type "url" then Ok (field p "url")
     else if eq_str prop_type "date" then
       let date_obj := content p "date" (VDict []) in
       if truthy date_obj then get date_obj "start" (VStr "") else Ok (VStr "")
     else if eq_str prop_type "select" then
       let select_obj := content p "select" (VDict []) in
       if truthy select_obj then get select_obj "name" (VStr "") else Ok (VStr "")
     else if eq_str prop_type "multi_select" then
       its <- iter (content p "multi_select" (VList [])) ;;
       names <- rmap (fun item => get item "name" (VStr "")) its ;;
       Ok (VList names)
     else Ok VNone)%res.
Proof.
  intro Hp. unfold get_property_value, get at 1. rewrite Hp. reflexivity.
Qed.

(** C5 (as implemented). For every [properties] mapping and name: a missing
    property normalizes to null; a payload whose content has the shape its
    type-tag announces normalizes to the value of the documented table (the
    plain text of the first text run of a title or the empty string, the
    plain texts of a rich text joined by one space, the raw url, the start of
    a date and the name of a select option or the empty string, the list of
    option names of a multi-select, null for any other or missing tag); a
    payload whose content has another shape, and a property that is no
    object, make the normalizer raise. *)
Theorem get_property_value_documented :
  forall (ps : list (string * value)) (name : string),
    (dict_get ps name = None -> get_property_value (VDict ps) name = Ok VNone) /\
    (forall p,
       dict_get ps name = Some (VDict p) ->
       (shaped p = true ->
        get_property_value (VDict ps) name = Ok (documented p)) /\
       (shaped p = false ->
        exists e, get_property_value (VDict ps) name = Raise e)) /\
    (forall v,
       dict_get ps name = Some v -> is_object v = false ->
       exists e, get_property_value (VDict ps) name = Raise e).
Proof.
  intros ps name. split; [|split].
  - intro Hnone. unfold get_property_value, get at 1. rewrite Hnone. reflexivity.
  - intros p Hp. rewrite (get_property_value_payload ps name p Hp).
    unfold documented, shaped, type_tag. cbv zeta.
    set (tag := content p "type" VNone).
    rewrite (eq_str_text tag "title"), (eq_str_text tag "rich_text"),
      (eq_str_text tag "url"), (eq_str_text tag "date"),
      (eq_str_text tag "select"), (eq_str_text tag "multi_select")
      by discriminate.
    destruct (String.eqb_spec (text_of tag) "title") as [E|_].
    { apply text_of_eq in E; [|discriminate]. rewrite E.
      apply title_branch. }
    destruct (String.eqb_spec (text_of tag) "rich_text") as [E|_].
    { apply text_of_eq in E; [|discriminate]. rewrite E.
      apply rich_text_branch. }
    destruct (String.eqb_spec (text_of tag) "url") as [E|_].
    { apply text_of_eq in E; [|discriminate]. rewrite E. simpl.
      split; [reflexivity | discriminate]. }
    destruct (String.eqb_spec (text_of tag) "date") as [E|_].
    { apply text_of_eq in E; [|discriminate]. rewrite E.
      apply object_branch. }
    destruct (String.eqb_spec (text_of tag) "select") as [E|_].
    { apply text_of_eq in E; [|discriminate]. rewrite E.
      apply object_branch. }
    destruct (String.eqb_spec (text_of tag) "multi_select") as [E|_].
    { apply text_of_eq in E; [|discriminate]. rewrite E.
      apply multi_select_branch. }
    destruct (truthy tag); simpl; split; try reflexivity; discriminate.
  - intros v Hv Hobj. unfold get_property_value, get at 1. rewrite Hv.
    destruct v; try discriminate; simpl; eauto.
Qed.

(** ** Dictionaries *)

Lemma dict_get_In d k v : dict_get d k = Some v -> In (k, v) d.
Proof.
  induction d as [|[k' v'] d IH]; simpl; [discriminate|].
  destruct (String.eqb_spec k' k) as [->|Hne]; intro H.
  - injection H as ->. now left.
  - right. auto.
Qed.

Lemma dict_get_keys d k v : dict_get d k = Some v -> In k (dict_keys d).
Proof.
  intro H. apply dict_get_In in H.
  unfold dict_keys. change k with (fst (k, v)). now apply in_map.
Qed.

Lemma dict_keys_get d k : In k (dict_keys d) -> exists v, dict_get d k = Some v.
Proof.
  induction d as [|[k' v'] d IH]; simpl; [contradiction|].
  intros [->|Hin].
  - rewrite String.eqb_refl. eauto.
  - destruct (k' =? k); eauto.
Qed.

Lemma dict_set_In d k v k' v' :
  In (k', v') (dict_set d k v) -> (k', v') = (k, v) \/ In (k', v') d.
Proof.
  induction d as [|[k0 v0] d IH]; simpl.
  - intros [H|[]]. now left.
  - destruct (k0 =? k); simpl.
    + intros [H|H]; [now left | right; now right].
    + intros [H|H]; [right; now left|].
      destruct (IH H); [now left | right; now right].
Qed.

Lemma dict_get_set d k v k' :
  dict_get (dict_set d k v) k' = if (k =? k') then Some v else dict_get d k'.
Proof.
  induction d as [|[k0 v0] d IH]; simpl.
  - reflexivity.
  - destruct (String.eqb_spec k0 k) as [->|Hne]; simpl.
    + destruct (k =? k'); reflexivity.
    + rewrite IH.
      destruct (String.eqb_spec k0 k') as [->|Hne']; [|reflexivity].
      destruct (String.eqb_spec k k') as [->|_]; [contradiction | reflexivity].
Qed.

Lemma truthy_nonempty v :
  truthy v = true -> v <> VNone /\ v <> VStr "" /\ v <> VList [].
Proof. intro H. repeat split; intros ->; discriminate. Qed.

(** ** Record Parser *)

Section ParseLoop.

Variable raw : value.

(** Every entry of the properties built by the loop was already there or
    was inserted for a name whose normalized value is truthy. *)
Lemma parse_loop_entries names acc props :
  rfold (parse_step raw) names acc = Ok props ->
  forall k v, In (k, v) props ->
    In (k, v) acc \/
    (In k names /\ get_property_value raw k = Ok v /\ truthy v = true).
Proof.
  revert acc. induction names as [|x names IH]; simpl; intros acc Hrun k v Hin.
  - injection Hrun as <-. now left.
  - unfold parse_step in Hrun at 1.
    destruct (get_property_value raw x) as [vx|e] eqn:Hx; simpl in Hrun; [|discriminate].
    destruct (IH _ Hrun k v Hin) as [Hacc | (Hn & Hv & Ht)].
    + destruct (truthy vx) eqn:Htx; [|now left].
      apply dict_set_In in Hacc. destruct Hacc as [Heq | Hacc]; [|now left].
      injection Heq as -> ->. right. auto.
    + right. auto.
Qed.

(** A truthy normalized value, once stored, stays. *)
Lemma parse_loop_keeps names acc props :
  rfold (parse_step raw) names acc = Ok props ->
  forall k v, get_property_value raw k = Ok v -> truthy v = true ->
    dict_get acc k = Some v -> dict_get props k = Some v.
Proof.
  revert acc. induction names as [|x names IH]; simpl; intros acc Hrun k v Hv Ht Hacc.
  - injection Hrun as <-. exact Hacc.
  - unfold parse_step in Hrun at 1.
    destruct (get_property_value raw x) as [vx|e] eqn:Hx; simpl in Hrun; [|discriminate].
    apply (IH _ Hrun k v Hv Ht).
    destruct (truthy vx); [|exact Hacc].
    rewrite dict_get_set.
    destruct (String.eqb_spec x k) as [->|_]; [|exact Hacc].
    congruence.
Qed.

Lemma parse_loop_inserts names acc props :
  rfold (parse_step raw) names acc = Ok props ->
  forall k v, In k names -> get_property_value raw k = Ok v -> truthy v = true ->
    dict_get props k = Some v.
Proof.
  revert acc. induction names as [|x names IH]; simpl; intros acc Hrun k v Hin Hv Ht.
  - contradiction.
  - pose proof Hrun as Hrun'.
    unfold parse_step in Hrun at 1.
    destruct (get_property_value raw x) as [vx|e] eqn:Hx; simpl in Hrun; [|discriminate].
    destruct Hin as [->|Hin]; [|eapply IH; eauto].
    rewrite Hv in Hx. injection Hx as <-. rewrite Ht in Hrun.
    eapply parse_loop_keeps; eauto.
    rewrite dict_get_set, String.eqb_refl. reflexivity.
Qed.

End ParseLoop.

(** The parser returns on every record whose properties all normalize. *)
Lemma parse_loop_returns raw names :
  (forall k, In k names -> exists v, get_property_value raw k = Ok v) ->
  forall acc, exists props, rfold (parse_step raw) names acc = Ok props.
Proof.
  induction names as [|x names IH]; simpl; intros Hall acc.
  - eauto.
  - destruct (Hall x (or_introl eq_refl)) as (v & Hv).
    unfold parse_step at 1. rewrite Hv. simpl.
    apply IH. intros k Hk. apply Hall. now right.
Qed.

Lemma parse_notion_page_returns fields raw :
  dict_get fields "properties" = Some (VDict raw) ->
  (forall k, In k (dict_keys raw) ->
     exists v, get_property_value (VDict raw) k = Ok v) ->
  exists parsed, parse_notion_page (VDict fields) = Ok parsed.
Proof.
  intros Hprops Hall. unfold parse_notion_page. simpl. rewrite Hprops. simpl.
  destruct (parse_loop_returns (VDict raw) (dict_keys raw) Hall []) as (props & ->).
  simpl. eauto.
Qed.

(** C2. The [properties] mapping of a parsed record has no null, empty-string
    or empty-list value, and it maps a name to a value exactly when the name
    is a property of the raw record whose normalized value is that value and
    is truthy. *)
Theorem parse_notion_page_properties :
  forall (page parsed : value),
    parse_notion_page page = Ok parsed ->
    exists raw props,
      get page "properties" (VDict []) = Ok (VDict raw) /\
      getitem parsed "properties" = Ok (VDict props) /\
      (forall k v, In (k, v) props ->
         v <> VNone /\ v <> VStr "" /\ v <> VList [] /\ truthy v = true) /\
      (forall k v, dict_get props k = Some v <->
         In k (dict_keys raw) /\
         get_property_value (VDict raw) k = Ok v /\ truthy v = true).
Proof.
  intros page parsed Hparse. unfold parse_notion_page in Hparse.
  destruct (get page "properties" (VDict [])) as [properties|e] eqn:Hprops;
    simpl in Hparse; [|discriminate].
  destruct (get page "id" (VStr "")) as [id|e]; simpl in Hparse; [|discriminate].
  destruct (get page "url" (VStr "")) as [url|e]; simpl in Hparse; [|discriminate].
  destruct (get page "created_time" (VStr "")) as [created|e];
    simpl in Hparse; [|discriminate].
  destruct properties as [| | | | |raw]; simpl in Hparse; try discriminate.
  destruct (rfold (parse_step (VDict raw)) (dict_keys raw) []) as [props|e] eqn:Hloop;
    simpl in Hparse; [|discriminate].
  injection Hparse as <-.
  exists raw, props. split; [reflexivity|]. split; [reflexivity|].
  assert (Hentries : forall k v, In (k, v) props ->
            In k (dict_keys raw) /\
            get_property_value (VDict raw) k = Ok v /\ truthy v = true).
  { intros k v Hin.
    destruct (parse_loop_entries _ _ _ _ Hloop k v Hin) as [[]|H]. exact H. }
  split.
  - intros k v Hin. destruct (Hentries k v Hin) as (_ & _ & Ht).
    destruct (truthy_nonempty v Ht) as (H1 & H2 & H3). auto.
  - intros k v. split.
    + intro Hget. apply Hentries. now apply dict_get_In.
    + intros (Hin & Hv & Ht). eapply parse_loop_inserts; eauto.
Qed.

(** ** Paginated Fetcher *)

Section Fetcher.

Variable db : string.

Lemma read_page_well_formed r acc :
  well_formed r = true ->
  read_page r acc = Ok ((acc ++ page_records r)%list, page_flag r, cursor_of r).
Proof.
  unfold well_formed, read_page, page_records, page_flag, cursor_of.
  destruct (json r) as [[| | | | |d]|e]; try discriminate.
  simpl. destruct (dict_get d "results") as [[| | | |l|]|]; try discriminate; intros _.
  - reflexivity.
  - simpl. rewrite app_nil_r. reflexivity.
Qed.

Lemma read_page_cursor r acc acc' hm nc :
  read_page r acc = Ok (acc', hm, nc) -> nc = cursor_of r.
Proof.
  unfold read_page, cursor_of.
  destruct (json r) as [[| | | | |d]|e]; try discriminate.
  simpl. destruct (iter _); simpl; [|discriminate].
  intro H. injection H as _ _ <-. reflexivity.
Qed.

Lemma continues_succeeded pages :
  forallb continues pages = true -> filter succeeded pages = pages.
Proof.
  induction pages as [|r pages IH]; simpl; [reflexivity|].
  intro H. apply andb_true_iff in H. destruct H as [Hr Hrest].
  unfold continues in Hr. apply andb_true_iff in Hr. destruct Hr as [Hr _].
  apply andb_true_iff in Hr. destruct Hr as [-> _].
  now rewrite IH.
Qed.

(** While the pages continue, the loop runs through them, appending their
    records. *)
Lemma fetch_loop_continues pages :
  forallb continues pages = true ->
  forall tail outbox acc hm nc,
    truthy hm = true ->
    exists outbox' hm' nc',
      truthy hm' = true /\
      fetch_loop db (pages ++ tail) outbox acc hm nc
      = fetch_loop db tail outbox'
          (acc ++ flat_map page_records pages) hm' nc'.
Proof.
  induction pages as [|r pages IH]; simpl; intros Hall tail outbox acc hm nc Hhm.
  - exists outbox, hm, nc. rewrite app_nil_r. auto.
  - apply andb_true_iff in Hall. destruct Hall as [Hr Hrest].
    unfold continues in Hr. apply andb_true_iff in Hr. destruct Hr as [Hr Hflag].
    apply andb_true_iff in Hr. destruct Hr as [Hok Hwf].
    unfold succeeded in Hok. rewrite Hhm, Hok.
    rewrite (read_page_well_formed r acc Hwf).
    destruct (IH Hrest tail
                 (outbox ++ [query_request db nc])%list
                 (acc ++ page_records r)%list (page_flag r) (cursor_of r) Hflag)
      as (outbox' & hm' & nc' & Hhm' & Heq).
    exists outbox', hm', nc'. split; [exact Hhm'|].
    rewrite Heq, <- app_assoc. reflexivity.
Qed.

Lemma fetch_loop_stops last rest outbox acc hm nc :
  truthy hm = true -> stops last = true ->
  exists outbox',
    fetch_loop db (last :: rest) outbox acc hm nc
    = Done (acc ++ flat_map page_records (filter succeeded [last]))%list
        (mk_world rest outbox').
Proof.
  intros Hhm Hstop. simpl. rewrite Hhm. unfold stops in Hstop.
  unfold succeeded in *. destruct (status_code last =? 200)%Z; simpl in *.
  - apply andb_true_iff in Hstop. destruct Hstop as [Hwf Hflag].
    apply negb_true_iff in Hflag.
    rewrite (read_page_well_formed last acc Hwf), app_nil_r.
    destruct rest; simpl; rewrite Hflag; eauto.
  - rewrite app_nil_r. eauto.
Qed.

Lemma flat_map_length_sum {A B} (f : A -> list B) (l : list A) :
  List.length (flat_map f l) = list_sum (map (fun x => List.length (f x)) l).
Proof.
  induction l as [|x l IH]; simpl; [reflexivity|].
  rewrite length_app, IH. reflexivity.
Qed.

(** C1 (as implemented). Provided every status-200 page that is read has a
    JSON object as its body whose [results], when present, is an array: when
    the script holds successful pages that report more data, then a page that
    fails (a status other than 200) or reports no more data, the fetcher
    returns the records of the successful pages among them, concatenated in
    page order, and leaves the rest of the script unread; the number of
    records is the sum of the pages' [results] lengths. A failing last page
    contributes nothing and the accumulated records are returned, not an
    error. When no page stops the loop, the fetcher is still waiting at the
    end of the script. *)
Theorem get_all_database_entries_pages :
  forall (pages : list response) (sent : list request),
    forallb continues pages = true ->
    (forall last rest,
       stops last = true ->
       let consumed := (pages ++ [last])%list in
       exists sent',
         get_all_database_entries db
           (mk_world (pages ++ last :: rest) sent)
         = Done (flat_map page_records (filter succeeded consumed))
             (mk_world rest sent') /\
         List.length (flat_map page_records (filter succeeded consumed))
         = list_sum (map (fun r => List.length (page_records r))
                       (filter succeeded consumed))) /\
    (exists sent',
       get_all_database_entries db (mk_world pages sent)
       = Starved (mk_world [] sent')).
Proof.
  intros pages sent Hall. split.
  - intros last rest Hstop consumed. subst consumed.
    unfold get_all_database_entries. simpl.
    destruct (fetch_loop_continues pages Hall (last :: rest) sent [] (VBool true)
                VNone eq_refl) as (outbox' & hm' & nc' & Hhm' & Heq).
    destruct (fetch_loop_stops last rest outbox' (flat_map page_records pages)
                hm' nc' Hhm' Hstop) as (sent' & Hdone).
    exists sent'. split; [|apply flat_map_length_sum].
    rewrite Heq. simpl app at 1. rewrite Hdone.
    rewrite filter_app, flat_map_app, (continues_succeeded pages Hall).
    reflexivity.
  - unfold get_all_database_entries. simpl.
    destruct (fetch_loop_continues pages Hall [] sent [] (VBool true)
                VNone eq_refl) as (outbox' & hm' & nc' & Hhm' & Heq).
    rewrite app_nil_r in Heq. rewrite Heq. simpl. rewrite Hhm'. eauto.
Qed.

End Fetcher.

(** ** Cursor protocol *)

Section Cursors.

Variable db : string.

(** The requests of a run: one per loop iteration, the first with the
    cursor the loop starts from, each later one with the cursor of the page
    read just before. *)
Lemma fetch_loop_requests inbox :
  forall sent acc hm nc,
    exists n,
      n <= S (List.length inbox) /\
      (truthy hm = true -> 1 <= n) /\
      outbox (final (fetch_loop db inbox sent acc hm nc))
      = (sent ++ map (query_request db)
                     (firstn n (nc :: map cursor_of inbox)))%list.
Proof.
  induction inbox as [|r inbox IH]; intros sent acc hm nc; simpl;
    destruct (truthy hm) eqn:Hhm.
  - exists 1. simpl. repeat split; auto.
  - exists 0. simpl. rewrite app_nil_r. repeat split; auto; discriminate.
  - destruct (status_code r =? 200)%Z.
    + destruct (read_page r acc) as [[[acc' hm'] nc']|e] eqn:Hread.
      * apply read_page_cursor in Hread. subst nc'.
        destruct (IH (sent ++ [query_request db nc])%list acc' hm' (cursor_of r))
          as (n & Hn & _ & Heq).
        exists (S n). split; [lia|]. split; [lia|].
        rewrite Heq, <- app_assoc. reflexivity.
      * exists 1. simpl. repeat split; auto; lia.
    + exists 1. simpl. repeat split; auto; lia.
  - exists 0. simpl. rewrite app_nil_r. repeat split; auto; try lia; discriminate.
Qed.


(** C8 (as implemented). In every run of the fetcher, whatever its outcome,
    at least one request is sent; the first carries no cursor, and request
    [i + 1] carries as [start_cursor] the [next_cursor] of response [i] when
    that value is truthy, and carries no cursor when it is null, missing or
    empty. *)
Theorem get_all_database_entries_cursors :
  forall (w : world),
    exists sent,
      outbox (final (get_all_database_entries db w)) = (outbox w ++ sent)%list /\
      sent <> [] /\
      guarded_cursor_protocol (inbox w) sent.
Proof.
  intro w. unfold get_all_database_entries.
  destruct (fetch_loop_requests (inbox w) (outbox w) [] (VBool true) VNone)
    as (n & Hn & Hpos & Heq).
  specialize (Hpos eq_refl).
  exists (map (query_request db) (firstn n (VNone :: map cursor_of (inbox w)))).
  split; [exact Heq|]. split.
  - destruct n as [|n]; [lia|]. simpl. discriminate.
  - split.
    + intros q Hq. destruct n as [|n]; [lia|]. simpl in Hq.
      injection Hq as <-. reflexivity.
    + intros i q r Hq Hr.
      rewrite nth_error_map, nth_error_firstn in Hq.
      destruct (Nat.ltb (S i) n); [|discriminate].
      simpl in Hq. rewrite nth_error_map, Hr in Hq. simpl in Hq.
      injection Hq as <-.
      unfold carries_cursor, carries_no_cursor, query_request. simpl.
      destruct (truthy (cursor_of r)); reflexivity.
Qed.

End Cursors.

(** ** Aggregation Engine *)

Lemma parse_notion_page_has_properties page parsed :
  parse_notion_page page = Ok parsed ->
  exists props, getitem parsed "properties" = Ok props.
Proof.
  unfold parse_notion_page. intro H.
  destruct (get page "properties" (VDict [])); simpl in H; [|discriminate].
  destruct (get page "id" (VStr "")); simpl in H; [|discriminate].
  destruct (get page "url" (VStr "")); simpl in H; [|discriminate].
  destruct (get page "created_time" (VStr "")); simpl in H; [|discriminate].
  destruct (keys a); simpl in H; [|discriminate].
  destruct (rfold _ _ _); simpl in H; [|discriminate].
  injection H as <-. eexists. reflexivity.
Qed.

Lemma for_each_fetched dbs :
  forall groups0 w groups w',
    for_each dbs groups0
      (fun groups db_id =>
         (entries <- get_all_database_entries db_id ;;
          ret (groups ++ [(db_id, entries)])%list)%run) w
    = Done groups w' ->
    exists new, groups = (groups0 ++ new)%list /\ fetched dbs w new w'.
Proof.
  induction dbs as [|db dbs IH]; simpl; intros groups0 w groups w' Hrun.
  - unfold ret in Hrun. injection Hrun as <- <-.
    exists []. rewrite app_nil_r. split; [reflexivity | constructor].
  - unfold bind at 1 2 in Hrun.
    destruct (get_all_database_entries db w) as [entries w1|e w1|w1] eqn:Hfetch;
      try discriminate.
    unfold ret at 1 in Hrun.
    destruct (IH _ _ _ _ Hrun) as (new & -> & Hnew).
    exists ((db, entries) :: new). rewrite <- app_assoc. split; [reflexivity|].
    econstructor; eauto.
Qed.

Lemma fetch_each_fetched dbs w groups w' :
  fetch_each dbs w = Done groups w' -> fetched dbs w groups w'.
Proof.
  intro H. destruct (for_each_fetched dbs [] w groups w' H) as (new & -> & Hnew).
  exact Hnew.
Qed.

Lemma fetched_ids dbs w groups w' :
  fetched dbs w groups w' -> map fst groups = dbs.
Proof. induction 1; simpl; congruence. Qed.

Lemma in_each_group_cons f db entries groups out :
  in_each_group f ((db, entries) :: groups) = Ok out ->
  exists o rest,
    f entries = Ok o /\ in_each_group f groups = Ok rest /\ out = (db, o) :: rest.
Proof.
  unfold in_each_group. simpl. intro H.
  destruct (f entries) as [o|e]; simpl in H; [|discriminate].
  destruct (rmap _ groups) as [rest|e]; simpl in H; [|discriminate].
  injection H as <-. eauto.
Qed.

Lemma in_each_group_ids f groups :
  forall out, in_each_group f groups = Ok out -> map fst out = map fst groups.
Proof.
  induction groups as [|[db entries] groups IH]; intros out H.
  - injection H as <-. reflexivity.
  - apply in_each_group_cons in H. destruct H as (o & rest & _ & Hrest & ->).
    simpl. f_equal. auto.
Qed.

Lemma NoDup_fst_functional {A B} (l : list (A * B)) k a b :
  NoDup (map fst l) -> In (k, a) l -> In (k, b) l -> a = b.
Proof.
  induction l as [|[k' c] l IH]; simpl; intros Hnd Ha Hb; [contradiction|].
  inversion Hnd as [|? ? Hnotin Hnd']; subst.
  destruct Ha as [Ha|Ha], Hb as [Hb|Hb].
  - congruence.
  - injection Ha as -> ->. exfalso. apply Hnotin.
    change k with (fst (k, b)). now apply in_map.
  - injection Hb as -> ->. exfalso. apply Hnotin.
    change k with (fst (k, a)). now apply in_map.
  - auto.
Qed.

Section Search.

Variable keyword : string.

Lemma search_loop db entries :
  forall parsed results,
    rmap parse_notion_page entries = Ok parsed ->
    rfold (search_step keyword db) entries results
    = Ok (results ++ hits_of keyword (db, parsed))%list.
Proof.
  unfold hits_of. simpl.
  induction entries as [|entry entries IH]; simpl; intros parsed results Hparse.
  - injection Hparse as <-. simpl. rewrite app_nil_r. reflexivity.
  - unfold search_step at 1.
    destruct (parse_notion_page entry) as [p|e] eqn:Hp; simpl in *; [|discriminate].
    destruct (rmap parse_notion_page entries) as [ps|e]; simpl in *; [|discriminate].
    injection Hparse as <-. simpl.
    destruct (parse_notion_page_has_properties _ _ Hp) as (props & Hprops).
    unfold matches at 1. rewrite Hprops. simpl.
    destruct (contains (lower keyword) (lower (dumps props))); simpl.
    + rewrite (IH ps _ eq_refl), <- app_assoc. reflexivity.
    + apply IH. reflexivity.
Qed.

Lemma search_run dbs w groups w' :
  fetched dbs w groups w' ->
  forall parsed_groups results,
    in_each_group (rmap parse_notion_page) groups = Ok parsed_groups ->
    for_each dbs results
      (fun results db_id =>
         (entries <- get_all_database_entries db_id ;;
          lift (rfold (search_step keyword db_id) entries results))%run) w
    = Done (results ++ flat_map (hits_of keyword) parsed_groups)%list w'.
Proof.
  induction 1 as [w|db dbs w entries w1 groups w2 Hfetch _ IH];
    intros parsed_groups results Hparse; simpl.
  - injection Hparse as <-. simpl. rewrite app_nil_r. reflexivity.
  - apply in_each_group_cons in Hparse.
    destruct Hparse as (parsed & rest & Hp & Hrest & ->).
    unfold bind at 1 2. rewrite Hfetch.
    rewrite (search_loop db entries parsed results Hp). simpl.
    rewrite (IH rest _ Hrest), <- app_assoc. reflexivity.
Qed.

(** C4. When the configured collections are fetched as [groups] and their
    records parse to [parsed_groups], the search returns, collection by
    collection in configured order and record by record in the order the
    remote returned them, one hit for each record whose lower-cased
    serialized properties contain the lower-cased keyword, and nothing else. *)
Theorem search_databases_hits :
  forall (w w' : world) (groups parsed_groups : list (string * list value)),
    fetch_each DATABASE_IDS w = Done groups w' ->
    in_each_group (rmap parse_notion_page) groups = Ok parsed_groups ->
    search_databases keyword w
    = Done (flat_map (hits_of keyword) parsed_groups) w' /\
    map fst parsed_groups = DATABASE_IDS /\
    (forall hit,
       In hit (flat_map (hits_of keyword) parsed_groups) <->
       exists db parsed entries,
         In (db, entries) parsed_groups /\ In parsed entries /\
         matches keyword parsed = true /\ hit = search_hit db parsed).
Proof.
  intros w w' groups parsed_groups Hfetch Hparse.
  apply fetch_each_fetched in Hfetch.
  split; [|split].
  - unfold search_databases.
    rewrite (search_run _ _ _ _ Hfetch parsed_groups [] Hparse). reflexivity.
  - rewrite (in_each_group_ids _ _ _ Hparse). exact (fetched_ids _ _ _ _ Hfetch).
  - intro hit. rewrite in_flat_map. split.
    + intros ([db entries] & Hgroup & Hhit).
      unfold hits_of in Hhit. simpl in Hhit.
      apply in_map_iff in Hhit. destruct Hhit as (parsed & <- & Hin).
      apply filter_In in Hin. destruct Hin as [Hin Hmatch].
      exists db, parsed, entries. auto.
    + intros (db & parsed & entries & Hgroup & Hin & Hmatch & ->).
      exists (db, entries). split; [exact Hgroup|].
      unfold hits_of. simpl. apply in_map. apply filter_In. auto.
Qed.

End Search.

Section Recent.

Variable cutoff_date : string.

Lemma recent_loop entries :
  forall kept recent_entries,
    forallb timestamped entries = true ->
    kept_records cutoff_date entries = Ok kept ->
    rfold (recent_step cutoff_date) entries recent_entries
    = Ok (recent_entries ++ kept)%list.
Proof.
  unfold kept_records.
  induction entries as [|entry entries IH]; simpl; intros kept acc Hts Hkept.
  - injection Hkept as <-. rewrite app_nil_r. reflexivity.
  - apply andb_true_iff in Hts. destruct Hts as [Hentry Hts].
    unfold recent_step at 1. unfold qualifies in Hkept at 1.
    unfold timestamped in Hentry. unfold timestamp in *.
    destruct entry as [| | | | |d]; try discriminate. simpl.
    assert (Hstep : forall s,
              rmap parse_notion_page
                (if String.leb cutoff_date s
                 then VDict d :: filter (qualifies cutoff_date) entries
                 else filter (qualifies cutoff_date) entries)
              = Ok kept ->
              rbind
                (if String.leb cutoff_date s
                 then (parsed <- parse_notion_page (VDict d) ;;
                       Ok (acc ++ [parsed])%list)%res
                 else Ok acc)
                (rfold (recent_step cutoff_date) entries)
              = Ok (acc ++ kept)%list).
    { intros s Hk. destruct (String.leb cutoff_date s).
      - simpl in Hk.
        destruct (parse_notion_page (VDict d)) as [p|e]; simpl in *; [|discriminate].
        destruct (rmap parse_notion_page _) as [ps|e] eqn:Hps; simpl in *; [|discriminate].
        injection Hk as <-.
        rewrite (IH ps _ Hts eq_refl), <- app_assoc. reflexivity.
      - simpl. apply IH; assumption. }
    destruct (dict_get d "created_time") as [[| | |s| |]|]; try discriminate;
      simpl; apply Hstep; exact Hkept.
Qed.

Lemma recent_run dbs w groups w' :
  fetched dbs w groups w' ->
  forall buckets recent,
    forallb (fun g => forallb timestamped (snd g)) groups = true ->
    in_each_group (kept_records cutoff_date) groups = Ok buckets ->
    for_each dbs recent
      (fun recent db_id =>
         (entries <- get_all_database_entries db_id ;;
          recent_entries <- lift (rfold (recent_step cutoff_date) entries []) ;;
          ret (match recent_entries with
               | [] => recent
               | _ => dict_set recent db_id (VList recent_entries)
               end))%run) w
    = Done (store_buckets buckets recent) w'.
Proof.
  induction 1 as [w|db dbs w entries w1 groups w2 Hfetch _ IH];
    intros buckets recent Hts Hkept; simpl.
  - injection Hkept as <-. reflexivity.
  - apply in_each_group_cons in Hkept.
    destruct Hkept as (kept & rest & Hk & Hrest & ->).
    simpl in Hts. apply andb_true_iff in Hts. destruct Hts as [Hentries Hts].
    unfold bind at 1 2. rewrite Hfetch.
    unfold bind at 1. rewrite (recent_loop entries kept [] Hentries Hk). simpl.
    unfold ret at 1. rewrite (IH rest _ Hts Hrest).
    unfold store_buckets. simpl. destruct kept; reflexivity.
Qed.

End Recent.

(** What the stored buckets look like from outside. *)
Lemma store_buckets_lookup buckets :
  forall recent db v,
    dict_get (store_buckets buckets recent) db = Some v ->
    dict_get recent db = Some v \/
    exists kept, In (db, kept) buckets /\ kept <> [] /\ v = VList kept.
Proof.
  unfold store_buckets.
  induction buckets as [|[b kept] buckets IH]; simpl; intros recent db v Hget.
  - now left.
  - apply IH in Hget. destruct Hget as [Hget | (k & Hin & Hne & ->)].
    + destruct kept as [|x kept]; [now left|].
      rewrite dict_get_set in Hget.
      destruct (String.eqb_spec b db) as [->|_]; [|now left].
      injection Hget as <-. right. exists (x :: kept).
      repeat split; [now left | discriminate].
    + right. exists k. auto.
Qed.

Lemma store_buckets_skips buckets :
  forall recent db,
    (forall kept, In (db, kept) buckets -> kept = []) ->
    dict_get (store_buckets buckets recent) db = dict_get recent db.
Proof.
  unfold store_buckets.
  induction buckets as [|[b kept] buckets IH]; simpl; intros recent db Hempty.
  - reflexivity.
  - rewrite IH by (intros k Hk; apply Hempty; now right).
    destruct kept as [|x kept]; [reflexivity|].
    rewrite dict_get_set.
    destruct (String.eqb_spec b db) as [->|_]; [|reflexivity].
    specialize (Hempty (x :: kept) (or_introl eq_refl)). discriminate.
Qed.

Lemma store_buckets_present buckets :
  forall recent db,
    (exists v, dict_get recent db = Some v) \/
    (exists kept, In (db, kept) buckets /\ kept <> []) ->
    exists v, dict_get (store_buckets buckets recent) db = Some v.
Proof.
  unfold store_buckets.
  induction buckets as [|[b kept] buckets IH]; simpl; intros recent db H.
  - destruct H as [H | (k & [] & _)]. exact H.
  - apply IH.
    destruct H as [(v & Hv) | (k & [Heq | Hin] & Hne)].
    + left. destruct kept as [|x kept]; [eauto|].
      rewrite dict_get_set. destruct (b =? db); eauto.
    + injection Heq as -> ->. left.
      destruct k as [|x k]; [contradiction|].
      rewrite dict_get_set, String.eqb_refl. eauto.
    + right. eauto.
Qed.

(** C3. With [cutoff] the ISO-8601 text of now minus [days], and the
    configured collections fetched as [groups] of records with string
    timestamps, the recency query returns a mapping built from the buckets
    [(db, kept)], where [kept] holds the parsed forms of exactly the records
    of [db] whose raw timestamp is at least [cutoff] in the lexicographic
    order, in the order fetched: every value of the mapping is a non-empty
    bucket of its collection, a collection with a non-empty bucket is
    present, and a collection whose buckets are all empty is absent; when the
    configured ids are distinct, each collection maps to its bucket exactly
    when the bucket is not empty. *)
Theorem get_recent_entries_window :
  forall (days : Z) (cutoff : string) (w w' : world)
         (groups buckets : list (string * list value)),
    cutoff_date_for days = Ok cutoff ->
    fetch_each DATABASE_IDS w = Done groups w' ->
    forallb (fun g => forallb timestamped (snd g)) groups = true ->
    in_each_group (kept_records cutoff) groups = Ok buckets ->
    exists recent,
      get_recent_entries days w = Done recent w' /\
      (forall db v,
         dict_get recent db = Some v ->
         exists kept, In (db, kept) buckets /\ kept <> [] /\ v = VList kept) /\
      (forall db kept,
         In (db, kept) buckets -> kept <> [] ->
         exists v, dict_get recent db = Some v) /\
      (forall db,
         (forall kept, In (db, kept) buckets -> kept = []) ->
         dict_get recent db = None) /\
      (NoDup DATABASE_IDS ->
       forall db kept,
         In (db, kept) buckets ->
         dict_get recent db
         = match kept with [] => None | _ => Some (VList kept) end).
Proof.
  intros days cutoff w w' groups buckets Hcut Hfetch Hts Hkept.
  apply fetch_each_fetched in Hfetch.
  exists (store_buckets buckets []). split; [|split; [|split; [|split]]].
  - unfold get_recent_entries, bind at 1, lift. rewrite Hcut.
    apply (recent_run cutoff _ _ _ _ Hfetch buckets [] Hts Hkept).
  - intros db v Hget.
    destruct (store_buckets_lookup _ _ _ _ Hget) as [Hnone | H]; [discriminate | exact H].
  - intros db kept Hin Hne. apply store_buckets_present. right. eauto.
  - intros db Hempty. rewrite store_buckets_skips by exact Hempty. reflexivity.
  - intros Hnodup db kept Hin.
    assert (Hids : NoDup (map fst buckets)).
    { rewrite (in_each_group_ids _ _ _ Hkept), (fetched_ids _ _ _ _ Hfetch).
      exact Hnodup. }
    destruct kept as [|x kept].
    + rewrite store_buckets_skips; [reflexivity|].
      intros k Hk. exact (NoDup_fst_functional _ _ _ _ Hids Hk Hin).
    + destruct (store_buckets_present buckets [] db) as (v & Hv).
      { right. exists (x :: kept). split; [exact Hin | discriminate]. }
      rewrite Hv.
      destruct (store_buckets_lookup _ _ _ _ Hv) as [Hnone | (k & Hk & _ & ->)];
        [discriminate|].
      rewrite (NoDup_fst_functional _ _ _ _ Hids Hk Hin). reflexivity.
Qed.

(** ** Context Compressor *)

Lemma fold_left_snoc {A B} (f : A -> B) (l : list A) :
  forall acc, fold_left (fun parts x => (parts ++ [f x])%list) l acc
              = (acc ++ map f l)%list.
Proof.
  induction l as [|x l IH]; simpl; intro acc.
  - rewrite app_nil_r. reflexivity.
  - rewrite IH, <- app_assoc. reflexivity.
Qed.

(** The text of lines joined by a separator. *)

Lemma concat_cons sep (a : string) ls :
  ls <> [] -> String.concat sep (a :: ls) = a ++ sep ++ String.concat sep ls.
Proof. destruct ls; [congruence | reflexivity]. Qed.

Lemma concat_app sep (xs ys : list string) :
  xs <> [] -> ys <> [] ->
  String.concat sep (xs ++ ys)%list
  = String.concat sep xs ++ sep ++ String.concat sep ys.
Proof.
  induction xs as [|x xs IH]; [congruence|]. intros _ Hys.
  destruct xs as [|x' xs].
  - cbn [List.app]. now rewrite concat_cons.
  - rewrite <- app_comm_cons, concat_cons by discriminate.
    rewrite IH by (discriminate || assumption).
    rewrite (concat_cons sep x) by discriminate.
    now rewrite !str_app_assoc.
Qed.

Lemma followed_nonempty ls suffix : ls <> [] -> followed ls suffix <> [].
Proof. destruct ls as [|l [|l' r]]; simpl; congruence. Qed.

Lemma concat_followed sep ls suffix :
  ls <> [] ->
  String.concat sep (followed ls suffix) = String.concat sep ls ++ suffix.
Proof.
  induction ls as [|l ls IH]; [congruence|]. intros _.
  destruct ls as [|l' ls]; [reflexivity|].
  change (followed (l :: l' :: ls) suffix)
    with (l :: followed (l' :: ls) suffix).
  rewrite concat_cons by (apply followed_nonempty; discriminate).
  rewrite IH by discriminate.
  rewrite (concat_cons sep l) by discriminate.
  now rewrite !str_app_assoc.
Qed.

Lemma concat_labelled sep label ls :
  ls <> [] ->
  String.concat sep (labelled label ls) = label ++ String.concat sep ls.
Proof.
  destruct ls as [|l ls]; [congruence|]. intros _.
  destruct ls as [|l' ls]; [reflexivity|].
  cbn [labelled]. rewrite !concat_cons by discriminate.
  now rewrite str_app_assoc.
Qed.

Lemma labelled_nonempty label ls : ls <> [] -> labelled label ls <> [].
Proof. destruct ls; simpl; congruence. Qed.

Lemma spaces_two n : spaces n ++ "  " = spaces (S (S n)).
Proof. induction n as [|n IH]; simpl; [reflexivity | now rewrite IH]. Qed.

Lemma break_line_step level :
  break_line 2 level ++ "  " = break_line 2 (S level).
Proof.
  unfold break_line. rewrite str_app_assoc, spaces_two.
  replace (2 * S level)%nat with (S (S (2 * level))) by lia. reflexivity.
Qed.

Lemma concat_indented level ls :
  ls <> [] ->
  String.concat (break_line 2 level) (indented ls)
  = "  " ++ String.concat (break_line 2 (S level)) ls.
Proof.
  induction ls as [|l ls IH]; [congruence|]. intros _.
  destruct ls as [|l' ls]; [reflexivity|].
  change (indented (l :: l' :: ls))
    with (("  " ++ l) :: indented (l' :: ls)).
  rewrite concat_cons by discriminate.
  rewrite IH by discriminate.
  rewrite (concat_cons _ l) by discriminate.
  rewrite <- break_line_step. now rewrite !str_app_assoc.
Qed.

Lemma members_nonempty blocks :
  blocks <> [] -> Forall (fun b => b <> []) blocks -> members blocks <> [].
Proof.
  destruct blocks as [|b r]; [congruence|]. intros _ Hall.
  inversion Hall as [|? ? Hb _]; subst.
  destruct b as [|l b]; [congruence|].
  destruct r; simpl; [discriminate|].
  destruct b; discriminate.
Qed.

Lemma members_text level blocks :
  blocks <> [] -> Forall (fun b => b <> []) blocks ->
  String.concat (break_line 2 level) (members blocks)
  = "  " ++ String.concat ("," ++ break_line 2 (S level))
              (map (String.concat (break_line 2 (S level))) blocks).
Proof.
  induction blocks as [|b r IH]; [congruence|]. intros _ Hall.
  inversion Hall as [|? ? Hb Hr]; subst.
  destruct r as [|b' r].
  - cbn [members map]. now apply concat_indented.
  - change (members (b :: b' :: r))
      with (indented (followed b ",") ++ members (b' :: r))%list.
    rewrite concat_app.
    + rewrite concat_indented by now apply followed_nonempty.
      rewrite concat_followed by assumption.
      rewrite IH by (discriminate || assumption).
      change (map (String.concat (break_line 2 (S level))) (b :: b' :: r))
        with (String.concat (break_line 2 (S level)) b
              :: map (String.concat (break_line 2 (S level))) (b' :: r)).
      rewrite (concat_cons _ (String.concat (break_line 2 (S level)) b))
        by discriminate.
      rewrite <- break_line_step. now rewrite !str_app_assoc.
    + unfold indented. destruct (followed b ",") eqn:Hf; [|discriminate].
      now apply followed_nonempty in Hf.
    + apply members_nonempty; [discriminate | assumption].
Qed.

Lemma pretty_lines_nonempty v : pretty_lines v <> [].
Proof. destruct v as [| [] | | | [|x l] | [|kv d]]; discriminate. Qed.

Lemma block_text level (opening closing : string) blocks :
  blocks <> [] -> Forall (fun b => b <> []) blocks ->
  String.concat (break_line 2 level)
    (opening :: members blocks ++ [closing])%list
  = opening ++ break_line 2 (S level)
      ++ String.concat ("," ++ break_line 2 (S level))
           (map (String.concat (break_line 2 (S level))) blocks)
      ++ break_line 2 level ++ closing.
Proof.
  intros Hne Hall.
  assert (Hm : members blocks <> []) by now apply members_nonempty.
  rewrite concat_cons by (destruct (members blocks); [congruence | discriminate]).
  rewrite concat_app by (assumption || discriminate).
  rewrite members_text by assumption.
  rewrite <- break_line_step. cbn [String.concat].
  now rewrite !str_app_assoc.
Qed.

Lemma dumps_at_list indent level x l :
  dumps_at indent level (VList (x :: l))
  = "[" ++ break_line indent (S level)
      ++ String.concat ("," ++ break_line indent (S level))
           (map (dumps_at indent (S level)) (x :: l))
      ++ break_line indent level ++ "]".
Proof. reflexivity. Qed.

Lemma dumps_at_dict indent level kv d :
  dumps_at indent level (VDict (kv :: d))
  = "{" ++ break_line indent (S level)
      ++ String.concat ("," ++ break_line indent (S level))
           (map (fun kv => json_str (fst kv) ++ ": "
                             ++ dumps_at indent (S level) (snd kv)) (kv :: d))
      ++ break_line indent level ++ "}".
Proof. reflexivity. Qed.

(** [json.dumps(v, indent=2)] at any depth is the lines of [pretty_lines],
    each after the first behind a line break and the indentation of that
    depth. *)
Lemma dumps_at_pretty_lines v :
  forall level,
    dumps_at 2 level v = String.concat (break_line 2 level) (pretty_lines v).
Proof.
  induction v as [| b | n | s | l IH | d IH] using value_nested_ind;
    intro level; try reflexivity.
  - destruct b; reflexivity.
  - destruct l as [|x l]; [reflexivity|].
    rewrite dumps_at_list.
    change (pretty_lines (VList (x :: l)))
      with ("[" :: members (map pretty_lines (x :: l)) ++ ["]"])%list.
    rewrite block_text.
    + rewrite map_map. do 4 f_equal.
      apply map_ext_Forall.
      eapply Forall_impl; [|exact IH]. intros v Hv. apply Hv.
    + discriminate.
    + apply Forall_map, Forall_forall. intros v _. apply pretty_lines_nonempty.
  - destruct d as [|kv d]; [reflexivity|].
    rewrite dumps_at_dict.
    change (pretty_lines (VDict (kv :: d)))
      with ("{" :: members (map (fun kv => labelled (json_str (fst kv) ++ ": ")
                                             (pretty_lines (snd kv))) (kv :: d))
                ++ ["}"])%list.
    rewrite block_text.
    + rewrite map_map. do 4 f_equal.
      apply map_ext_Forall.
      eapply Forall_impl; [|exact IH]. intros p Hp. cbv beta.
      rewrite concat_labelled by apply pretty_lines_nonempty.
      rewrite str_app_assoc. now rewrite Hp.
    + discriminate.
    + apply Forall_map, Forall_forall. intros p _.
      apply labelled_nonempty, pretty_lines_nonempty.
Qed.

Lemma dumps_indent_pretty v : dumps_indent 2 v = pretty v.
Proof. apply (dumps_at_pretty_lines v 0). Qed.

Lemma create_notion_context_parts d :
  create_notion_context (VDict d)
  = String.concat (chr newline)
      (map (fun kv => fst kv ++ ": " ++ dumps_indent 2 (snd kv)) d).
Proof.
  unfold create_notion_context.
  rewrite (fold_left_snoc (fun kv => fst kv ++ ": " ++ dumps_indent 2 (snd kv))).
  reflexivity.
Qed.

(** C9. For a mapping the context is, for every key in iteration order, the
    key, a colon, a space and the pretty-printed JSON text of the value (laid
    out on lines as [pretty_lines] has them: members one per line, two more
    spaces of indentation per level, a comma after every member but the
    last), these joined by newlines; for any other input it is the input's
    direct stringification: a string itself, [None], [True] or [False], the
    decimal digits of an integer, and for a list the literals of its elements
    between brackets, separated by a comma and a space. *)
Theorem create_notion_context_lines :
  forall (data_summary : value),
    create_notion_context data_summary
    = match data_summary with
      | VDict d =>
          String.concat (chr newline)
            (map (fun kv => fst kv ++ ": " ++ pretty (snd kv)) d)
      | VStr s => s
      | VNone => "None"
      | VBool true => "True"
      | VBool false => "False"
      | VInt n => str_int n
      | VList l => "[" ++ String.concat ", " (map repr l) ++ "]"
      end.
Proof.
  intros [| [] | n | s | l | d]; try reflexivity.
  rewrite create_notion_context_parts. f_equal.
  apply map_ext. intro kv. now rewrite dumps_indent_pretty.
Qed.

(** ** Routes *)

Lemma args_get_keyword (a : list (string * string)) :
  args_get a "keyword" ""
  = match option_map snd (find (fun kv => fst kv =? "keyword") a) with
    | Some k => k
    | None => ""
    end.
Proof.
  induction a as [|[k v] a IH]; simpl; [reflexivity|].
  destruct (k =? "keyword"); [reflexivity | exact IH].
Qed.

(** C10. [GET /search] answers 400, without querying the remote, when the
    [keyword] parameter is absent and also when it is present but empty; for
    any other keyword it runs the search on it and answers 200 with the
    matches, or 500 when the search raises. *)
Theorem search_keyword_required :
  forall (req : flask_request) (w : world),
    match keyword_param req with
    | None | Some EmptyString => search req w = Done keyword_required w
    | Some keyword =>
        search req w
        = try_except
            (results <- search_databases keyword ;;
             ret (jsonify [("keyword", VStr keyword);
                           ("matches", VInt (Z.of_nat (List.length results)));
                           ("results", VList (firstn 10 results))] 200))%run
            error_500 w
    end.
Proof.
  intros req w. unfold search, keyword_param. rewrite args_get_keyword.
  destruct (option_map snd (find _ (args req))) as [[|c k]|]; reflexivity.
Qed.

Lemma dict_get_not_member d k :
  dict_get d k = None -> existsb (String.eqb k) (dict_keys d) = false.
Proof.
  induction d as [|[k' v] d IH]; simpl; [reflexivity|].
  rewrite (String.eqb_sym k k').
  destruct (k' =? k); [discriminate | exact IH].
Qed.

(** C7. On a POST to [/chat]: without a configured generation key the answer
    is 500 whatever the body; with a key, a JSON object without a [message]
    key (the empty object included) is answered with 400. Neither case
    queries the remote. *)
Theorem chat_rejections :
  forall (req : flask_request) (w : world),
    method req = "POST" ->
    (key_missing = true -> chat req w = Done key_not_configured w) /\
    (key_missing = false ->
     forall d,
       get_json req = Ok (VDict d) ->
       dict_get d "message" = None ->
       chat req w = Done message_required w).
Proof.
  intros req w Hpost. unfold chat. rewrite Hpost. simpl. split.
  - intros ->. reflexivity.
  - intros -> d Hjson Hnone. unfold bind, lift. rewrite Hjson.
    destruct d as [|kv d]; [reflexivity|].
    cbn [truthy negb member rbind].
    rewrite (dict_get_not_member _ _ Hnone). reflexivity.
Qed.

(** ** Words and substrings *)

Lemma lower_app (a b : string) : lower (a ++ b) = lower a ++ lower b.
Proof. induction a as [|x a IH]; simpl; [reflexivity | now rewrite IH]. Qed.

Lemma prefix_app (a q : string) : String.prefix a (a ++ q) = true.
Proof.
  induction a as [|x a IH]; simpl.
  - destruct q; reflexivity.
  - destruct (ascii_dec x x) as [_|Hne]; [exact IH | now destruct Hne].
Qed.

Lemma contains_unfold (a s : string) :
  contains a s
  = String.prefix a s ||
    match s with
    | EmptyString => false
    | String _ r => contains a r
    end.
Proof. destruct s; reflexivity. Qed.

Lemma substr_contains (a s : string) : substr a s -> contains a s = true.
Proof.
  intros (p & q & ->). induction p as [|c p IH].
  - simpl. rewrite contains_unfold, prefix_app. reflexivity.
  - simpl. rewrite IH. apply orb_true_r.
Qed.

Lemma substr_lower (a s : string) : substr a s -> substr (lower a) (lower s).
Proof.
  intros (p & q & ->). exists (lower p), (lower q).
  now rewrite !lower_app.
Qed.

Lemma substr_cons (c : ascii) (a s : string) : substr a s -> substr a (String c s).
Proof. intros (p & q & ->). now exists (String c p), q. Qed.

(** A word produced by the splitter is the pending word extended by a
    prefix of the input, or it occurs in the input. *)
Lemma split_go_words (s : string) :
  forall cur w,
    In w (split_go s cur) ->
    (exists p q, s = p ++ q /\ w = cur ++ p) \/ substr w s.
Proof.
  induction s as [|c s IH]; simpl; intros cur w Hin.
  - destruct (cur =? ""); [contradiction|].
    destruct Hin as [<-|[]]. left. exists "", "".
    split; [reflexivity | symmetry; apply str_app_nil_r].
  - assert (Hfresh : In w (split_go s "") -> substr w (String c s)).
    { intro H. apply substr_cons.
      destruct (IH "" w H) as [(p & q & -> & ->)|Hsub]; [|exact Hsub].
      now exists "", q. }
    destruct (is_space c).
    + destruct (cur =? "").
      * right. auto.
      * destruct Hin as [<-|Hin]; [|right; auto].
        left. exists "", (String c s).
        split; [reflexivity | symmetry; apply str_app_nil_r].
    + destruct (IH _ w Hin) as [(p & q & -> & ->)|Hsub].
      * left. exists (String c p), q. rewrite str_app_assoc. now split.
      * right. now apply substr_cons.
Qed.

Lemma split_words_occur (s w : string) : In w (split s) -> substr w s.
Proof.
  intro Hin. destruct (split_go_words s "" w Hin) as [(p & q & -> & ->)|H].
  - now exists "", q.
  - exact H.
Qed.

Lemma word_contained (s w : string) :
  In w (split s) -> contains (lower w) (lower s) = true.
Proof.
  intro Hin. apply substr_contains, substr_lower, split_words_occur, Hin.
Qed.

(** ** Chat intent *)

Lemma scan_words_first pre word term post :
  forallb (fun x => negb (is_search_word x)) pre = true ->
  is_search_word word = true ->
  scan_words (pre ++ word :: term :: post) = search_context term.
Proof.
  intros Hpre Hword. induction pre as [|x pre IH].
  - simpl. rewrite Hword. reflexivity.
  - simpl in Hpre. apply andb_true_iff in Hpre. destruct Hpre as [Hx Hpre].
    apply negb_true_iff in Hx. specialize (IH Hpre).
    change ((x :: pre) ++ word :: term :: post)%list
      with (x :: (pre ++ word :: term :: post))%list.
    destruct (pre ++ word :: term :: post)%list as [|y l] eqn:Hrest.
    + destruct pre; discriminate.
    + cbn [scan_words]. rewrite Hx.
      exact IH.
Qed.

Lemma is_search_word_cases word :
  is_search_word word = true ->
  lower word = "search" \/ lower word = "find" \/ lower word = "about".
Proof.
  unfold is_search_word. simpl. rewrite orb_false_r.
  intro H. apply orb_true_iff in H. destruct H as [H|H].
  - left. now apply String.eqb_eq in H.
  - apply orb_true_iff in H. destruct H as [H|H]; apply String.eqb_eq in H; auto.
Qed.

Lemma chat_context_first_search_word (message word term : string) :
  mentions_recency message = false ->
  first_search_word (split message) word term ->
  (lower word = "about" -> asks_for_data message = true) ->
  chat_context message = search_context term.
Proof.
  intros Hrec (pre & post & Hsplit & Hpre & Hword) Hgate.
  assert (Hin : In word (split message)).
  { rewrite Hsplit. apply in_or_app. right. now left. }
  apply word_contained in Hin.
  unfold mentions_recency in Hrec. apply orb_false_elim in Hrec.
  destruct Hrec as [Hrecent Hlatest].
  assert (Hfetch : existsb (fun keyword => contains keyword (lower message))
                     search_keywords = true).
  { unfold search_keywords. cbn [existsb]. rewrite Hrecent, Hlatest.
    destruct (is_search_word_cases word Hword) as [Hw|[Hw|Hw]].
    - rewrite Hw in Hin. rewrite Hin. reflexivity.
    - rewrite Hw in Hin. rewrite Hin. apply orb_true_r.
    - specialize (Hgate Hw). unfold asks_for_data in Hgate. cbn [existsb] in Hgate.
      rewrite !orb_false_r in *. cbn [orb].
      destruct (contains "search" (lower message)); [reflexivity|].
      destruct (contains "find" (lower message)); [reflexivity|].
      exact Hgate. }
  unfold chat_context. cbv zeta. rewrite Hfetch, Hrecent, Hlatest. cbn [orb].
  rewrite Hsplit. apply scan_words_first; assumption.
Qed.

Lemma dict_get_member d k v :
  dict_get d k = Some v -> existsb (String.eqb k) (dict_keys d) = true.
Proof.
  induction d as [|[k' v'] d IH]; simpl; [discriminate|].
  rewrite (String.eqb_sym k k').
  destruct (k' =? k); [reflexivity | exact IH].
Qed.

(** A POST with a configured key and a string [message] reaches the [try]
    block. *)
Lemma chat_accepts req d message w :
  method req = "POST" ->
  key_missing = false ->
  get_json req = Ok (VDict d) ->
  dict_get d "message" = Some (VStr message) ->
  chat req w = try_except (chat_reply (VStr message)) error_500 w.
Proof.
  intros Hpost Hkey Hjson Hmsg. unfold chat. rewrite Hpost, Hkey. simpl.
  unfold bind at 1, lift at 1. rewrite Hjson.
  destruct d as [|kv d]; [discriminate|].
  unfold bind at 1, lift at 1. cbn [truthy negb member rbind].
  rewrite (dict_get_member _ _ _ Hmsg). cbn [negb].
  unfold bind at 1, lift at 1, getitem. rewrite Hmsg. reflexivity.
Qed.

(** C6 (as implemented). For a message without "recent" and "latest", whose
    first search word ("search", "find" or "about" as a whole word, in any
    case) is followed by a token: the handler runs the keyword search on
    exactly that token when the word is "search" or "find"; when the word is
    "about" it does so provided the message also contains one of "search",
    "find", "show me", "what". This holds of the context computation and of
    the handler on a POST that carries the message, with a configured key. *)
Theorem chat_keyword_search :
  forall (message word term : string),
    mentions_recency message = false ->
    first_search_word (split message) word term ->
    (lower word = "about" -> asks_for_data message = true) ->
    chat_context message = search_context term /\
    (forall req d w,
       method req = "POST" ->
       key_missing = false ->
       get_json req = Ok (VDict d) ->
       dict_get d "message" = Some (VStr message) ->
       chat req w
       = try_except
           (_ <- lift genai_model ;;
            notion_context <- search_context term ;;
            finish_chat message notion_context)%run
           error_500 w).
Proof.
  intros message word term Hrec Hfirst Hgate.
  pose proof (chat_context_first_search_word message word term Hrec Hfirst Hgate)
    as Hcontext.
  split; [exact Hcontext|].
  intros req d w Hpost Hkey Hjson Hmsg.
  rewrite (chat_accepts req d message w Hpost Hkey Hjson Hmsg).
  unfold chat_reply. rewrite Hcontext. reflexivity.
Qed.


(** ** Further properties of the fetcher *)

Section FetcherAccounting.

Variable db : string.

Lemma fetch_loop_accounting script :
  forall sent acc hm nc,
    exists consumed new,
      script = (consumed ++ inbox (final (fetch_loop db script sent acc hm nc)))%list /\
      outbox (final (fetch_loop db script sent acc hm nc)) = (sent ++ new)%list /\
      Forall (to_collection db) new /\
      List.length new
      = List.length consumed
        + (if starved (fetch_loop db script sent acc hm nc) then 1 else 0).
Proof.
  induction script as [|r script IH]; intros sent acc hm nc; simpl;
    destruct (truthy hm) eqn:Hhm.
  - exists [], [query_request db nc]. simpl. repeat split; auto.
    constructor; [split; reflexivity | constructor].
  - exists [], []. simpl. rewrite app_nil_r. repeat split; auto.
  - assert (Hone : exists consumed new,
               r :: script = (consumed ++ script)%list /\
               (sent ++ [query_request db nc])%list = (sent ++ new)%list /\
               Forall (to_collection db) new /\
               List.length new = List.length consumed + 0).
    { exists [r], [query_request db nc]. repeat split; auto.
      constructor; [split; reflexivity | constructor]. }
    destruct (status_code r =? 200)%Z; [|exact Hone].
    destruct (read_page r acc) as [[[acc' hm'] nc']|e]; [|exact Hone].
    destruct (IH (sent ++ [query_request db nc])%list acc' hm' nc')
      as (consumed & new & Hin & Hout & Hto & Hlen).
    exists (r :: consumed), (query_request db nc :: new).
    split; [simpl; f_equal; exact Hin|].
    split; [rewrite Hout, <- app_assoc; reflexivity|].
    split; [constructor; [split; reflexivity | exact Hto]|].
    simpl. rewrite Hlen. reflexivity.
  - exists [], []. simpl. rewrite app_nil_r. repeat split; auto.
Qed.

(** X1. In every run of the fetcher the responses read are a prefix of the
    script and the requests are appended to the log; each request goes to
    the query URL of the collection with the configured headers; and the
    number of requests equals the number of responses read, plus one when
    the run is left waiting: one request per page, none repeated. *)
Theorem get_all_database_entries_accounting :
  forall (w : world),
    exists consumed new,
      inbox w = (consumed ++ inbox (final (get_all_database_entries db w)))%list /\
      outbox (final (get_all_database_entries db w)) = (outbox w ++ new)%list /\
      Forall (to_collection db) new /\
      List.length new
      = List.length consumed
        + (if starved (get_all_database_entries db w) then 1 else 0).
Proof.
  intro w. unfold get_all_database_entries. apply fetch_loop_accounting.
Qed.

Lemma read_page_unreadable r acc :
  unreadable r = true -> exists e, read_page r acc = Raise e.
Proof.
  unfold unreadable, read_page.
  destruct (json r) as [[| | | | |d]|e]; try discriminate; intros _; simpl; eauto.
Qed.

(** X2. A status-200 page whose body is not a JSON object makes the fetcher
    raise: the records of the pages read before it are not returned. *)
Theorem get_all_database_entries_unreadable :
  forall (pages : list response) (bad : response) (rest : list response)
         (sent : list request),
    forallb continues pages = true ->
    succeeded bad = true ->
    unreadable bad = true ->
    exists e sent',
      get_all_database_entries db (mk_world (pages ++ bad :: rest) sent)
      = Raised e (mk_world rest sent').
Proof.
  intros pages bad rest sent Hall Hok Hbad.
  unfold get_all_database_entries. simpl.
  destruct (fetch_loop_continues db pages Hall (bad :: rest) sent [] (VBool true)
              VNone eq_refl) as (outbox' & hm' & nc' & Hhm' & Heq).
  rewrite Heq. simpl. unfold succeeded in Hok. rewrite Hhm', Hok.
  destruct (read_page_unreadable bad (flat_map page_records pages) Hbad) as (e & ->).
  eauto.
Qed.

End FetcherAccounting.

(** ** Further properties of the parser *)

Lemma dict_set_fresh d k v :
  ~ In k (dict_keys d) -> dict_set d k v = (d ++ [(k, v)])%list.
Proof.
  induction d as [|[k' v'] d IH]; simpl; intro Hfresh; [reflexivity|].
  destruct (String.eqb_spec k' k) as [->|_].
  - exfalso. apply Hfresh. now left.
  - rewrite IH; [reflexivity|]. intro H. apply Hfresh. now right.
Qed.

Lemma parse_loop_exact raw names :
  forall acc nv,
    NoDup names ->
    (forall k, In k names -> ~ In k (dict_keys acc)) ->
    rmap (fun k => (v <- get_property_value raw k ;; Ok (k, v))%res) names = Ok nv ->
    rfold (parse_step raw) names acc = Ok (acc ++ filter truthy_entry nv)%list.
Proof.
  induction names as [|x names IH]; simpl; intros acc nv Hnd Hfresh Hnv.
  - injection Hnv as <-. simpl. rewrite app_nil_r. reflexivity.
  - unfold parse_step at 1.
    destruct (get_property_value raw x) as [v|e]; simpl in *; [|discriminate].
    destruct (rmap _ names) as [nv'|e] eqn:Hrest; simpl in Hnv; [|discriminate].
    injection Hnv as <-. inversion Hnd as [|? ? Hx Hnd']; subst.
    unfold truthy_entry at 1. simpl. destruct (truthy v).
    + rewrite (dict_set_fresh acc x v) by (apply Hfresh; now left).
      rewrite (IH _ nv' Hnd').
      * rewrite <- app_assoc. reflexivity.
      * intros k Hk Hin. unfold dict_keys in Hin. rewrite map_app in Hin.
        apply in_app_or in Hin. destruct Hin as [Hin | [<- | []]].
        -- apply (Hfresh k); [now right | exact Hin].
        -- contradiction.
      * reflexivity.
    + apply IH; auto.
Qed.

(** X3. For a record with distinct property names whose properties all
    normalize, the parser returns exactly: [id], [url] and [created] copied
    from the raw [id], [url] and [created_time] (the empty string for a
    missing one), and as [properties] the names with truthy normalized
    values, in the order of the raw record. *)
Theorem parse_notion_page_exact :
  forall (fields raw nv : list (string * value)),
    get (VDict fields) "properties" (VDict []) = Ok (VDict raw) ->
    NoDup (dict_keys raw) ->
    normalized raw = Ok nv ->
    parse_notion_page (VDict fields)
    = Ok (VDict [("id", field fields "id");
                 ("url", field fields "url");
                 ("created", field fields "created_time");
                 ("properties", VDict (filter truthy_entry nv))]).
Proof.
  intros fields raw nv Hprops Hnd Hnv. unfold parse_notion_page.
  rewrite Hprops. simpl.
  rewrite (parse_loop_exact (VDict raw) (dict_keys raw) [] nv Hnd); auto.
Qed.

(** ** Further properties of the keyword search *)

Lemma rfold_ext {A S} (f g : S -> A -> res S) (l : list A) :
  (forall s x, f s x = g s x) -> forall s, rfold f l s = rfold g l s.
Proof.
  intro Hfg. induction l as [|x l IH]; simpl; intro s; [reflexivity|].
  rewrite Hfg. destruct (g s x); simpl; auto.
Qed.

Lemma for_each_ext {A S} (b1 b2 : S -> A -> M S) (l : list A) :
  (forall s x w, b1 s x w = b2 s x w) ->
  forall s w, for_each l s b1 w = for_each l s b2 w.
Proof.
  intro Hb. induction l as [|x l IH]; simpl; intros s w; [reflexivity|].
  unfold bind. rewrite Hb. destruct (b2 s x w); auto.
Qed.

Lemma lower_char_idempotent c : lower_char (lower_char c) = lower_char c.
Proof. destruct c as [[] [] [] [] [] [] [] []]; reflexivity. Qed.

Lemma lower_idempotent s : lower (lower s) = lower s.
Proof.
  induction s as [|c s IH]; simpl; [reflexivity|].
  now rewrite lower_char_idempotent, IH.
Qed.

Lemma search_step_lower k k' db results entry :
  lower k = lower k' ->
  search_step k db results entry = search_step k' db results entry.
Proof.
  intro H. unfold search_step.
  destruct (parse_notion_page entry); simpl; [|reflexivity].
  destruct (getitem _ "properties"); simpl; [|reflexivity].
  rewrite H. reflexivity.
Qed.

(** X4. The search does not depend on the case of the keyword: two keywords
    with the same lower-case form give the same run, and so does a keyword
    and its lower-case form. *)
Theorem search_databases_ignores_case :
  forall (k k' : string) (w : world),
    lower k = lower k' ->
    search_databases k w = search_databases k' w /\
    search_databases (lower k) w = search_databases k w.
Proof.
  assert (Hsame : forall a b w, lower a = lower b ->
                    search_databases a w = search_databases b w).
  { intros a b w H. unfold search_databases. apply for_each_ext.
    intros results db w0. unfold bind.
    destruct (get_all_database_entries db w0); try reflexivity.
    rewrite (rfold_ext (search_step a db) (search_step b db)); [reflexivity|].
    intros s x. now apply search_step_lower. }
  intros k k' w H. split.
  - now apply Hsame.
  - apply Hsame. apply lower_idempotent.
Qed.

Lemma substr_refl s : substr s s.
Proof. exists "", "". simpl. now rewrite str_app_nil_r. Qed.

Lemma substr_trans a b c : substr a b -> substr b c -> substr a c.
Proof.
  intros (p & q & ->) (p' & q' & ->). exists (p' ++ p), (q ++ q').
  now rewrite !str_app_assoc.
Qed.

Lemma substr_app_l a b c : substr a b -> substr a (b ++ c).
Proof.
  intros (p & q & ->). exists p, (q ++ c). now rewrite !str_app_assoc.
Qed.

Lemma substr_app_r a b c : substr a c -> substr a (b ++ c).
Proof.
  intros (p & q & ->). exists (b ++ p), q. now rewrite !str_app_assoc.
Qed.

Lemma substr_concat sep x l : In x l -> substr x (String.concat sep l).
Proof.
  induction l as [|y l IH]; simpl; [contradiction|].
  intros [->|Hin].
  - destruct l; [apply substr_refl | apply substr_app_l, substr_refl].
  - destruct l as [|z l]; [contradiction|].
    apply substr_app_r, substr_app_r, IH, Hin.
Qed.

Lemma json_chars_plain s : plain s = true -> json_chars s = s.
Proof.
  induction s as [|c s IH]; simpl; [reflexivity|].
  intro H. apply andb_true_iff in H. destruct H as [Hc Hs].
  rewrite (IH Hs).
  assert (Hchar : json_char c = chr c).
  { revert Hc. destruct c as [[] [] [] [] [] [] [] []];
      intro Hc; try reflexivity; discriminate Hc. }
  rewrite Hchar. reflexivity.
Qed.

Lemma substr_json_str s : plain s = true -> substr s (json_str s).
Proof.
  intro H. unfold json_str. rewrite (json_chars_plain s H).
  apply substr_app_r, substr_app_l, substr_refl.
Qed.

Lemma dumps_dict d :
  dumps (VDict d)
  = "{" ++ String.concat ", "
             (map (fun kv => json_str (fst kv) ++ ": " ++ dumps (snd kv)) d)
        ++ "}".
Proof. reflexivity. Qed.

Lemma dumps_list l :
  dumps (VList l) = "[" ++ String.concat ", " (map dumps l) ++ "]".
Proof. reflexivity. Qed.

Lemma mentions_dumps props t :
  plain t = true -> mentions props t -> substr t (dumps (VDict props)).
Proof.
  intros Hplain (k & v & Hin & Hcase).
  rewrite dumps_dict. apply substr_app_r, substr_app_l.
  eapply substr_trans;
    [|apply substr_concat,
        (in_map (fun kv => json_str (fst kv) ++ ": " ++ dumps (snd kv)) _ _ Hin)].
  cbv beta. cbn [fst snd]. destruct Hcase as [-> | [-> | (l & -> & Hl)]].
  - apply substr_app_l, substr_json_str, Hplain.
  - apply substr_app_r, substr_app_r. apply substr_json_str, Hplain.
  - apply substr_app_r, substr_app_r. rewrite dumps_list.
    apply substr_app_r, substr_app_l.
    eapply substr_trans; [|apply substr_concat, (in_map dumps _ _ Hl)].
    apply substr_json_str, Hplain.
Qed.

(** X5. A record is matched whenever the lower-cased keyword occurs in the
    lower-case form of one of its property names, of one of its string
    values or of an element of one of its list values, for text made of
    printable ASCII without double quote and backslash. In particular a
    search for a property name matches every record that has the property. *)
Theorem matches_names_and_values :
  forall (keyword t : string) (parsed : value) (props : list (string * value)),
    getitem parsed "properties" = Ok (VDict props) ->
    plain t = true ->
    mentions props t ->
    substr (lower keyword) (lower t) ->
    matches keyword parsed = true.
Proof.
  intros keyword t parsed props Hprops Hplain Hmentions Hsub.
  unfold matches. rewrite Hprops.
  apply substr_contains. eapply substr_trans; [exact Hsub|].
  apply substr_lower, mentions_dumps; assumption.
Qed.

(** *** Keywords outside ASCII *)

Lemma ascii_only_app a b : ascii_only (a ++ b) = ascii_only a && ascii_only b.
Proof.
  induction a as [|c a IH]; simpl; [reflexivity|].
  now rewrite IH, andb_assoc.
Qed.

Lemma ascii_only_substr a s : substr a s -> ascii_only s = true -> ascii_only a = true.
Proof.
  intros (p & q & ->). rewrite !ascii_only_app.
  intro H. apply andb_true_iff in H. destruct H as [_ H].
  apply andb_true_iff in H. apply H.
Qed.

Lemma ascii_only_concat sep l :
  ascii_only sep = true ->
  Forall (fun x => ascii_only x = true) l ->
  ascii_only (String.concat sep l) = true.
Proof.
  intros Hsep Hall. induction Hall as [|x l Hx Hl IH]; simpl; [reflexivity|].
  destruct l; [exact Hx|].
  now rewrite !ascii_only_app, Hx, Hsep, IH.
Qed.

Lemma ascii_only_uint d : ascii_only (NilEmpty.string_of_uint d) = true.
Proof. induction d; simpl; auto. Qed.

Lemma ascii_only_str_int n : ascii_only (str_int n) = true.
Proof.
  unfold str_int, NilZero.string_of_int, NilZero.string_of_uint.
  destruct (Z.to_int n) as [d|d]; destruct d; simpl; auto;
    apply ascii_only_uint.
Qed.

Lemma ascii_only_json_char c : ascii_only (json_char c) = true.
Proof. destruct c as [[] [] [] [] [] [] [] []]; reflexivity. Qed.

Lemma ascii_only_json_str s : ascii_only (json_str s) = true.
Proof.
  unfold json_str. rewrite !ascii_only_app. simpl. rewrite andb_true_r.
  induction s as [|c s IH]; simpl; [reflexivity|].
  now rewrite ascii_only_app, ascii_only_json_char, IH.
Qed.

(** [json.dumps] writes ASCII only. *)
Lemma ascii_only_dumps v : ascii_only (dumps v) = true.
Proof.
  induction v as [| b | n | s | l IH | d IH] using value_nested_ind.
  - reflexivity.
  - destruct b; reflexivity.
  - apply ascii_only_str_int.
  - apply ascii_only_json_str.
  - rewrite dumps_list, !ascii_only_app.
    apply andb_true_iff. split; [reflexivity|].
    apply andb_true_iff. split; [|reflexivity].
    apply ascii_only_concat; [reflexivity|].
    apply Forall_forall. intros x Hx. apply in_map_iff in Hx.
    destruct Hx as (y & <- & Hy). rewrite Forall_forall in IH. auto.
  - rewrite dumps_dict, !ascii_only_app.
    apply andb_true_iff. split; [reflexivity|].
    apply andb_true_iff. split; [|reflexivity].
    apply ascii_only_concat; [reflexivity|].
    apply Forall_forall. intros x Hx. apply in_map_iff in Hx.
    destruct Hx as (kv & <- & Hkv). rewrite Forall_forall in IH.
    cbv beta. rewrite !ascii_only_app, ascii_only_json_str, (IH kv Hkv). reflexivity.
Qed.

Lemma ascii_char_lower c : ascii_char (lower_char c) = ascii_char c.
Proof. destruct c as [[] [] [] [] [] [] [] []]; reflexivity. Qed.

Lemma ascii_only_lower s : ascii_only (lower s) = ascii_only s.
Proof.
  induction s as [|c s IH]; simpl; [reflexivity|].
  now rewrite ascii_char_lower, IH.
Qed.

Lemma prefix_split a s : String.prefix a s = true -> exists q, s = a ++ q.
Proof.
  revert a. induction s as [|c s IH]; intros [|x a]; simpl; try discriminate; eauto.
  destruct (ascii_dec x c) as [->|_]; [|discriminate].
  intro H. destruct (IH a H) as (q & ->). eauto.
Qed.

Lemma contains_substr a s : contains a s = true -> substr a s.
Proof.
  induction s as [|c s IH]; rewrite contains_unfold; intro H;
    apply orb_true_iff in H; destruct H as [H|H]; try discriminate.
  - destruct (prefix_split _ _ H) as (q & ->). now exists "", q.
  - destruct (prefix_split _ _ H) as (q & ->). now exists "", q.
  - apply substr_cons. auto.
Qed.

Lemma filter_none {A} (f : A -> bool) (l : list A) :
  (forall x, f x = false) -> filter f l = [].
Proof.
  intro H. induction l as [|x l IH]; simpl; [reflexivity|]. now rewrite H.
Qed.

Lemma matches_ascii keyword parsed :
  ascii_only keyword = false -> matches keyword parsed = false.
Proof.
  intro Hk. unfold matches. destruct (getitem parsed "properties") as [props|e];
    [|reflexivity].
  destruct (contains (lower keyword) (lower (dumps props))) eqn:Hc; [|reflexivity].
  apply contains_substr in Hc.
  apply ascii_only_substr in Hc.
  - rewrite ascii_only_lower in Hc. congruence.
  - rewrite ascii_only_lower. apply ascii_only_dumps.
Qed.

(** X6. Among texts of code points below 256: a keyword with a character
    in the range 128 to 255 (an accented Latin-1 letter, say) matches no
    record, since its lower-cased form keeps a character of that range while
    the serialized properties are ASCII only; a search for it over
    collections that are fetched and parsed returns no hit. Keywords with
    code points from 256 on are not texts of this model, and the property
    does not extend to them: the Kelvin sign U+212A lower-cases to the ASCII
    letter k and matches wherever k does. *)
Theorem search_databases_non_ascii :
  forall (keyword : string),
    ascii_only keyword = false ->
    (forall parsed, matches keyword parsed = false) /\
    (forall w w' groups parsed_groups,
       fetch_each DATABASE_IDS w = Done groups w' ->
       in_each_group (rmap parse_notion_page) groups = Ok parsed_groups ->
       search_databases keyword w = Done [] w').
Proof.
  intros keyword Hk. split.
  - intro parsed. now apply matches_ascii.
  - intros w w' groups parsed_groups Hfetch Hparse.
    apply fetch_each_fetched in Hfetch. unfold search_databases.
    rewrite (search_run keyword _ _ _ _ Hfetch parsed_groups [] Hparse).
    f_equal. simpl. clear Hparse.
    induction parsed_groups as [|g gs IH]; simpl; [reflexivity|].
    unfold hits_of at 1.
    rewrite (filter_none (matches keyword) (snd g)
               (fun parsed => matches_ascii keyword parsed Hk)).
    simpl. apply IH.
Qed.

(** ** Further properties of the recency window *)

Lemma dict_set_keys_present d k v :
  In k (dict_keys d) -> dict_keys (dict_set d k v) = dict_keys d.
Proof.
  induction d as [|[k' v'] d IH]; simpl; [contradiction|].
  destruct (String.eqb_spec k' k) as [->|Hne]; [reflexivity|].
  intros [Heq|Hin]; [contradiction|]. simpl. now rewrite IH.
Qed.

Lemma dict_set_keys d k v :
  dict_keys (dict_set d k v) = dict_keys d \/
  (~ In k (dict_keys d) /\ dict_keys (dict_set d k v) = (dict_keys d ++ [k])%list).
Proof.
  destruct (in_dec string_dec k (dict_keys d)) as [Hin|Hout].
  - left. now apply dict_set_keys_present.
  - right. split; [exact Hout|]. rewrite (dict_set_fresh d k v Hout).
    unfold dict_keys. now rewrite map_app.
Qed.

Lemma dict_set_NoDup d k v :
  NoDup (dict_keys d) -> NoDup (dict_keys (dict_set d k v)).
Proof.
  intro Hnd. destruct (dict_set_keys d k v) as [-> | (Hout & ->)]; [exact Hnd|].
  apply NoDup_app; [exact Hnd | repeat constructor; intros [] |].
  intros x Hx [<-|[]]. contradiction.
Qed.

Section RecentInvariant.

Variable cutoff_date : string.

Lemma recent_for_each_good dbs :
  forall recent0 w recent w',
    (forall db, In db dbs -> In db DATABASE_IDS) ->
    good_buckets recent0 ->
    for_each dbs recent0
      (fun recent db_id =>
         (entries <- get_all_database_entries db_id ;;
          recent_entries <- lift (rfold (recent_step cutoff_date) entries []) ;;
          ret (match recent_entries with
               | [] => recent
               | _ => dict_set recent db_id (VList recent_entries)
               end))%run) w
    = Done recent w' ->
    good_buckets recent.
Proof.
  induction dbs as [|db dbs IH]; simpl; intros recent0 w recent w' Hsub Hgood Hrun.
  - unfold ret in Hrun. injection Hrun as <- _. exact Hgood.
  - unfold bind at 1 2 in Hrun.
    destruct (get_all_database_entries db w) as [entries w1|e w1|w1];
      try discriminate.
    unfold bind at 1, lift in Hrun.
    destruct (rfold (recent_step cutoff_date) entries []) as [kept|e];
      try discriminate.
    unfold ret at 1 in Hrun.
    apply (IH _ _ _ _ (fun d Hd => Hsub d (or_intror Hd))) in Hrun; [exact Hrun|].
    destruct kept as [|x kept]; [exact Hgood|].
    destruct Hgood as [Hall Hnd]. split; [|now apply dict_set_NoDup].
    apply Forall_forall. intros [k v] Hin.
    apply dict_set_In in Hin. destruct Hin as [Heq|Hin].
    + injection Heq as -> ->. split; [reflexivity | apply Hsub; now left].
    + rewrite Forall_forall in Hall. exact (Hall _ Hin).
Qed.

End RecentInvariant.

(** X7. Whatever the remote answers, a mapping returned by the recency
    query has distinct keys taken from the configured ids, and every value
    is a non-empty list: no collection is listed with zero records. *)
Theorem get_recent_entries_buckets :
  forall (days : Z) (w w' : world) (recent : list (string * value)),
    get_recent_entries days w = Done recent w' ->
    Forall (fun kv => is_bucket (snd kv) = true /\ In (fst kv) DATABASE_IDS) recent /\
    NoDup (dict_keys recent).
Proof.
  intros days w w' recent Hrun. unfold get_recent_entries, bind at 1, lift in Hrun.
  destruct (cutoff_date_for days) as [cutoff|e]; [|discriminate].
  apply (recent_for_each_good cutoff DATABASE_IDS [] w recent w'); auto.
  split; constructor.
Qed.

Lemma sum_lengths_buckets (recent : list (string * value)) :
  Forall (fun kv => is_bucket (snd kv) = true) recent ->
  forall acc,
    rfold (fun acc entries => (n <- len entries ;; Ok (acc + n)%Z)%res)
      (map snd recent) acc
    = Ok (acc + Z.of_nat (list_sum (map (fun kv => bucket_size (snd kv)) recent)))%Z.
Proof.
  induction 1 as [|[k v] recent Hv _ IH]; simpl; intro acc.
  - now rewrite Z.add_0_r.
  - destruct v as [| | | |[|x l]|]; try discriminate. simpl len. simpl rbind.
    rewrite IH. f_equal. cbn [bucket_size snd].
    rewrite Nat2Z.inj_add.
    change (Z.pos (Pos.of_succ_nat (List.length l)))
      with (Z.of_nat (List.length (x :: l))).
    lia.
Qed.

Lemma count_by_database_buckets (recent : list (string * value)) :
  Forall (fun kv => is_bucket (snd kv) = true) recent ->
  forall acc,
    NoDup (dict_keys acc ++ dict_keys recent) ->
    rfold (fun acc kv =>
             (n <- len (snd kv) ;; Ok (dict_set acc (fst kv) (VInt n)))%res)
      recent acc
    = Ok (acc ++ map (fun kv => (fst kv, VInt (Z.of_nat (bucket_size (snd kv)))))
                   recent)%list.
Proof.
  induction 1 as [|[k v] recent Hv _ IH]; simpl; intros acc Hnd.
  - now rewrite app_nil_r.
  - destruct v as [| | | |[|x l]|]; try discriminate. simpl len. simpl rbind.
    assert (Hfresh : ~ In k (dict_keys acc)).
    { intro Hin. apply NoDup_remove_2 in Hnd. apply Hnd.
      apply in_or_app. now left. }
    rewrite (dict_set_fresh acc k _ Hfresh), IH.
    + rewrite <- app_assoc. reflexivity.
    + unfold dict_keys in *. rewrite map_app, <- app_assoc. exact Hnd.
Qed.

(** X8. When the recency query returns, [/recent] answers 200 with the
    mapping as [data], one count per key of the mapping in [by_database],
    each count being the size of its bucket and at least 1, and
    [total_entries] equal to the sum of these counts. The day count is the
    [days] parameter, 7 when it is absent or does not convert. *)
Theorem recent_totals :
  forall (req : flask_request) (w w' : world) (recent_news : list (string * value)),
    get_recent_entries (args_get_int (args req) "days" 7) w = Done recent_news w' ->
    recent req w
    = Done (jsonify
              [("days", VInt (args_get_int (args req) "days" 7));
               ("total_entries",
                VInt (Z.of_nat (list_sum (map (fun kv => bucket_size (snd kv))
                                            recent_news))));
               ("by_database",
                VDict (map (fun kv => (fst kv, VInt (Z.of_nat (bucket_size (snd kv)))))
                         recent_news));
               ("data", VDict recent_news)] 200) w' /\
    Forall (fun kv => 1 <= bucket_size (snd kv)) recent_news.
Proof.
  intros req w w' recent_news Hrun.
  assert (Hgood : good_buckets recent_news).
  { unfold get_recent_entries, bind at 1, lift in Hrun.
    destruct (cutoff_date_for _) as [cutoff|e]; [|discriminate].
    apply (recent_for_each_good cutoff DATABASE_IDS [] w recent_news w'); auto.
    split; constructor. }
  destruct Hgood as [Hall Hnd].
  assert (Hbuckets : Forall (fun kv => is_bucket (snd kv) = true) recent_news).
  { eapply Forall_impl; [|exact Hall]. intros kv [H _]. exact H. }
  split.
  - unfold recent, try_except, bind at 1. rewrite Hrun.
    unfold bind at 1, lift at 1, sum_lengths.
    rewrite (sum_lengths_buckets recent_news Hbuckets 0%Z).
    unfold bind at 1, lift at 1, count_by_database.
    rewrite (count_by_database_buckets recent_news Hbuckets []); [reflexivity|].
    exact Hnd.
  - eapply Forall_impl; [|exact Hbuckets].
    intros [k v] H. simpl in *. destruct v as [| | | |[|x l]|]; try discriminate.
    simpl. lia.
Qed.

Lemma rfold_app {A S} (f : S -> A -> res S) (a b : list A) (s : S) :
  rfold f (a ++ b) s = rbind (rfold f a s) (rfold f b).
Proof.
  revert s. induction a as [|x a IH]; simpl; intro s; [reflexivity|].
  destruct (f s x); simpl; auto.
Qed.

Lemma recent_step_untimestamped cutoff acc entry :
  timestamp entry = None -> exists e, recent_step cutoff acc entry = Raise e.
Proof.
  unfold timestamp, recent_step.
  destruct entry as [| | | | |d]; simpl; eauto.
  destruct (dict_get d "created_time") as [[| | |s| |]|]; simpl; eauto;
    discriminate.
Qed.

Lemma for_each_app {A S} (a b : list A) (body : S -> A -> M S) :
  forall s w,
    for_each (a ++ b)%list s body w
    = bind (for_each a s body) (fun s' => for_each b s' body) w.
Proof.
  induction a as [|x a IH]; intros s w; [reflexivity|].
  cbn [List.app for_each]. unfold bind.
  destruct (body s x w) as [s1 w1|e w1|w1]; [apply IH | reflexivity | reflexivity].
Qed.

(** X9. A fetched record of any configured collection that is not an
    object, or whose [created_time] is present but not a string, is not
    skipped: when the collections before it and the records before it are
    processed without error, the recency query raises at that record, and
    [/recent] answers 500 with the error text. *)
Theorem get_recent_entries_bad_timestamp :
  forall (days : Z) (cutoff db : string) (before others : list string)
         (w w0 w1 : world) (groups buckets : list (string * list value))
         (good tail kept : list value) (bad : value),
    DATABASE_IDS = (before ++ db :: others)%list ->
    cutoff_date_for days = Ok cutoff ->
    fetch_each before w = Done groups w0 ->
    forallb (fun g => forallb timestamped (snd g)) groups = true ->
    in_each_group (kept_records cutoff) groups = Ok buckets ->
    get_all_database_entries db w0 = Done (good ++ bad :: tail)%list w1 ->
    forallb timestamped good = true ->
    kept_records cutoff good = Ok kept ->
    timestamp bad = None ->
    exists e,
      get_recent_entries days w = Raised e w1 /\
      (forall req,
         args_get_int (args req) "days" 7 = days ->
         recent req w = Done (jsonify [("error", VStr (str_exn e))] 500) w1).
Proof.
  intros days cutoff db before others w w0 w1 groups buckets good tail kept bad
    Hids Hcut Hbefore Hts Hbuckets Hfetch Hgood Hkept Hbad.
  destruct (recent_step_untimestamped cutoff kept bad Hbad) as (e & He).
  assert (Hrun : get_recent_entries days w = Raised e w1).
  { unfold get_recent_entries, bind at 1, lift at 1. rewrite Hcut, Hids.
    rewrite for_each_app. unfold bind at 1.
    rewrite (recent_run cutoff before w groups w0
               (fetch_each_fetched before w groups w0 Hbefore)
               buckets [] Hts Hbuckets).
    cbn [for_each]. unfold bind at 1 2. rewrite Hfetch.
    unfold bind at 1, lift at 1.
    rewrite rfold_app, (recent_loop cutoff good kept [] Hgood Hkept).
    simpl. rewrite He. reflexivity. }
  exists e. split; [exact Hrun|].
  intros req Hdays. unfold recent, try_except, bind at 1.
  rewrite Hdays, Hrun. reflexivity.
Qed.

(** ** The full dump and the status route *)

Lemma str_int_inj a b : str_int a = str_int b -> a = b.
Proof.
  unfold str_int. intro H.
  assert (Hnil : forall z, Z.to_int z <> Decimal.Pos Decimal.Nil /\
                           Z.to_int z <> Decimal.Neg Decimal.Nil).
  { intros [|p|p]; simpl; split; try discriminate; intro Hp; injection Hp;
      apply DecimalPos.Unsigned.to_uint_nonnil. }
  apply (f_equal NilZero.int_of_string) in H.
  rewrite !NilZero.isi in H by apply Hnil.
  injection H as H. apply (f_equal Z.of_int) in H.
  now rewrite !DecimalZ.of_to in H.
Qed.

Lemma rmap_length {A B} (f : A -> res B) (l : list A) :
  forall out, rmap f l = Ok out -> List.length out = List.length l.
Proof.
  induction l as [|x l IH]; simpl; intros out H.
  - injection H as <-. reflexivity.
  - destruct (f x); simpl in H; [|discriminate].
    destruct (rmap f l); simpl in H; [|discriminate].
    injection H as <-. simpl. f_equal. auto.
Qed.

Lemma enumerate_length {A} (l : list A) :
  forall i, List.length (enumerate i l) = List.length l.
Proof. induction l as [|x l IH]; simpl; intro i; [reflexivity | now rewrite IH]. Qed.

Lemma get_all_data_run dbs w groups w' :
  fetched dbs w groups w' ->
  forall parsed_groups i acc,
    in_each_group (rmap parse_notion_page) groups = Ok parsed_groups ->
    numbered_below i acc ->
    for_each (enumerate i dbs) acc
      (fun all_data numbered =>
         let i := fst numbered in
         let db_id := snd numbered in
         (entries <- get_all_database_entries db_id ;;
          parsed_entries <- lift (rmap parse_notion_page entries) ;;
          ret (dict_set all_data ("database_" ++ str_int i)
                 (VDict [("database_id", VStr db_id);
                         ("entries", VList parsed_entries);
                         ("count", VInt (Z.of_nat (List.length parsed_entries)))])))%run) w
    = Done (acc ++ all_data_of i parsed_groups)%list w'.
Proof.
  induction 1 as [w|db dbs w entries w1 groups w2 Hfetch _ IH];
    intros parsed_groups i acc Hparse Hbelow.
  - injection Hparse as <-. simpl. rewrite app_nil_r. reflexivity.
  - apply in_each_group_cons in Hparse.
    destruct Hparse as (parsed & rest & Hp & Hrest & ->).
    cbn [enumerate for_each fst snd]. unfold bind at 1 2. cbv zeta. cbn [fst snd].
    rewrite Hfetch. unfold bind at 1, lift at 1. rewrite Hp.
    unfold ret at 1.
    rewrite dict_set_fresh.
    + rewrite (IH rest (i + 1)%Z _ Hrest).
      * rewrite <- app_assoc. reflexivity.
      * intros k Hk. unfold dict_keys in Hk. rewrite map_app in Hk.
        apply in_app_or in Hk. destruct Hk as [Hk | [<- | []]].
        -- destruct (Hbelow k Hk) as (j & Hj & ->). exists j. split; [lia | reflexivity].
        -- exists i. split; [lia | reflexivity].
    + intro Hin. destruct (Hbelow _ Hin) as (j & Hj & Heq).
      simpl in Heq. injection Heq as Heq. apply str_int_inj in Heq. lia.
Qed.

Lemma get_all_data_fetched w w' groups parsed_groups :
  fetched DATABASE_IDS w groups w' ->
  in_each_group (rmap parse_notion_page) groups = Ok parsed_groups ->
  get_all_data w = Done (all_data_of 1 parsed_groups) w'.
Proof.
  intros Hfetch Hparse.
  apply (get_all_data_run _ _ _ _ Hfetch parsed_groups 1%Z [] Hparse).
  intros k [].
Qed.

(** X10. When the configured collections are fetched and their records
    parse, the full dump has one entry per configured id, in order, keyed
    [database_1], [database_2], ...: a repeated id gets its own entry. Each
    entry holds the id, the parsed records and their number. *)
Theorem get_all_data_entries :
  forall (w w' : world) (groups parsed_groups : list (string * list value)),
    fetch_each DATABASE_IDS w = Done groups w' ->
    in_each_group (rmap parse_notion_page) groups = Ok parsed_groups ->
    get_all_data w = Done (all_data_of 1 parsed_groups) w' /\
    map fst parsed_groups = DATABASE_IDS /\
    List.length (all_data_of 1 parsed_groups) = List.length DATABASE_IDS /\
    NoDup (dict_keys (all_data_of 1 parsed_groups)).
Proof.
  intros w w' groups parsed_groups Hfetch Hparse.
  apply fetch_each_fetched in Hfetch.
  assert (Hids : map fst parsed_groups = DATABASE_IDS).
  { rewrite (in_each_group_ids _ _ _ Hparse). exact (fetched_ids _ _ _ _ Hfetch). }
  split; [|split; [exact Hids | split]].
  - exact (get_all_data_fetched _ _ _ _ Hfetch Hparse).
  - rewrite <- Hids. unfold all_data_of. rewrite !length_map.
    apply enumerate_length.
  - unfold all_data_of, dict_keys. rewrite map_map. cbn [all_data_entry fst].
    assert (Hgen : forall i (l : list (string * list value)),
               NoDup (map (fun numbered => "database_" ++ str_int (fst numbered))
                        (enumerate i l)) /\
               forall k, In k (map (fun numbered => "database_" ++ str_int (fst numbered))
                                 (enumerate i l)) ->
                         exists j, (i <= j)%Z /\ k = "database_" ++ str_int j).
    { intros i l. revert i. induction l as [|g gs IH]; intro i; simpl.
      - split; [constructor | intros k []].
      - destruct (IH (i + 1)%Z) as [Hnd Hge]. split.
        + constructor; [|exact Hnd].
          intro Hin. destruct (Hge _ Hin) as (j & Hj & Heq).
          simpl in Heq. injection Heq as Heq. apply str_int_inj in Heq. lia.
        + intros k [<-|Hk].
          * exists i. split; [lia | reflexivity].
          * destruct (Hge k Hk) as (j & Hj & ->). exists j. split; [lia | reflexivity]. }
    apply Hgen.
Qed.

Lemma sum_counts_all_data (parsed_groups : list (string * list value)) :
  forall i acc,
    rfold (fun acc db => (count <- getitem db "count" ;; add acc count)%res)
      (map snd (all_data_of i parsed_groups)) acc
    = Ok (acc + Z.of_nat (total_records parsed_groups))%Z.
Proof.
  unfold all_data_of, total_records.
  induction parsed_groups as [|g gs IH]; intros i acc; simpl.
  - now rewrite Z.add_0_r.
  - rewrite IH. f_equal. rewrite Nat2Z.inj_add. lia.
Qed.

Lemma in_each_group_total groups :
  forall parsed_groups,
    in_each_group (rmap parse_notion_page) groups = Ok parsed_groups ->
    total_records parsed_groups = total_records groups.
Proof.
  unfold total_records.
  induction groups as [|[db entries] groups IH]; intros parsed_groups H.
  - injection H as <-. reflexivity.
  - apply in_each_group_cons in H. destruct H as (parsed & rest & Hp & Hrest & ->).
    simpl. rewrite (rmap_length _ _ _ Hp), (IH rest Hrest). reflexivity.
Qed.

Lemma status_run w w' groups parsed_groups :
  fetched DATABASE_IDS w groups w' ->
  in_each_group (rmap parse_notion_page) groups = Ok parsed_groups ->
  status w = Done (status_success (Z.of_nat (total_records groups))) w'.
Proof.
  intros Hfetch Hparse. unfold status, try_except, bind at 1.
  rewrite (get_all_data_fetched _ _ _ _ Hfetch Hparse).
  unfold bind at 1, lift at 1, sum_counts.
  rewrite (sum_counts_all_data parsed_groups 1%Z 0%Z). cbn [Z.add].
  unfold ret, status_success.
  assert (Hlen : List.length (all_data_of 1 parsed_groups) = List.length DATABASE_IDS).
  { unfold all_data_of. rewrite length_map, enumerate_length.
    rewrite <- (fetched_ids _ _ _ _ Hfetch), <- (in_each_group_ids _ _ _ Hparse).
    now rewrite length_map. }
  rewrite Hlen, (in_each_group_total _ _ Hparse). reflexivity.
Qed.

(** X11. When the configured collections are fetched and their records
    parse, [/status] answers 200 with [databases] the number of configured
    ids and [total_entries] the number of records fetched over all of them. *)
Theorem status_totals :
  forall (w w' : world) (groups parsed_groups : list (string * list value)),
    fetch_each DATABASE_IDS w = Done groups w' ->
    in_each_group (rmap parse_notion_page) groups = Ok parsed_groups ->
    status w = Done (status_success (Z.of_nat (total_records groups))) w'.
Proof.
  intros w w' groups parsed_groups Hfetch Hparse.
  apply fetch_each_fetched in Hfetch. eapply status_run; eauto.
Qed.

Lemma fetch_failing db r rest sent :
  succeeded r = false ->
  get_all_database_entries db (mk_world (r :: rest) sent)
  = Done [] (mk_world rest (sent ++ [query_request db VNone])%list).
Proof.
  intro H. unfold get_all_database_entries. simpl.
  unfold succeeded in H. rewrite H. reflexivity.
Qed.

Lemma fetched_failing dbs :
  forall fails rest sent,
    List.length fails = List.length dbs ->
    forallb (fun r => negb (succeeded r)) fails = true ->
    fetched dbs (mk_world (fails ++ rest) sent)
      (map (fun db => (db, [])) dbs)
      (mk_world rest (sent ++ map (fun db => query_request db VNone) dbs)%list).
Proof.
  induction dbs as [|db dbs IH]; intros [|r fails] rest sent Hlen Hall;
    try discriminate; simpl.
  - rewrite app_nil_r. constructor.
  - simpl in Hall. apply andb_true_iff in Hall. destruct Hall as [Hr Hall].
    apply negb_true_iff in Hr. injection Hlen as Hlen.
    econstructor; [apply (fetch_failing db r (fails ++ rest) sent Hr)|].
    replace (sent ++ query_request db VNone
               :: map (fun db0 => query_request db0 VNone) dbs)%list
      with ((sent ++ [query_request db VNone])
              ++ map (fun db0 => query_request db0 VNone) dbs)%list
      by (rewrite <- app_assoc; reflexivity).
    now apply IH.
Qed.

Lemma total_records_empty (dbs : list string) :
  total_records (map (fun db => (db, [])) dbs) = 0.
Proof.
  unfold total_records. induction dbs as [|db dbs IH]; simpl; auto.
Qed.

Lemma in_each_group_empty (dbs : list string) :
  in_each_group (rmap parse_notion_page) (map (fun db => (db, [])) dbs)
  = Ok (map (fun db => (db, [])) dbs).
Proof.
  unfold in_each_group. induction dbs as [|db dbs IH]; simpl; [reflexivity|].
  rewrite IH. reflexivity.
Qed.

(** X12. When the remote refuses every query (one non-200 answer per
    configured collection), [/status] still answers 200 with status
    "success" and [notion_connected] true, with [total_entries] 0, after one
    request without cursor per collection. *)
Theorem status_remote_down :
  forall (fails rest : list response) (sent : list request),
    List.length fails = List.length DATABASE_IDS ->
    forallb (fun r => negb (succeeded r)) fails = true ->
    status (mk_world (fails ++ rest) sent)
    = Done (status_success 0)
        (mk_world rest
           (sent ++ map (fun db => query_request db VNone) DATABASE_IDS)%list).
Proof.
  intros fails rest sent Hlen Hall.
  rewrite (status_run _ _ _ (map (fun db => (db, [])) DATABASE_IDS)
             (fetched_failing DATABASE_IDS fails rest sent Hlen Hall)).
  - now rewrite total_records_empty.
  - apply in_each_group_empty.
Qed.

(** ** Further properties of the chat route *)

(** X13. A message that contains "recent" or "latest" (in any case) is
    answered from the recency query even when it also holds a search word;
    the window is 30 days exactly when the message contains "month" and not
    "week", and 7 days otherwise. *)
Theorem chat_context_recency :
  forall (message : string),
    mentions_recency message = true ->
    chat_context message = recent_context (inferred_days message) /\
    (inferred_days message = 30%Z <->
     contains "month" (lower message) = true /\
     contains "week" (lower message) = false) /\
    (inferred_days message = 7%Z \/ inferred_days message = 30%Z).
Proof.
  intros message Hrec. unfold mentions_recency in Hrec.
  assert (Hgate : existsb (fun keyword => contains keyword (lower message))
                    search_keywords = true).
  { unfold search_keywords. cbn [existsb].
    destruct (contains "recent" (lower message)),
             (contains "latest" (lower message)); try discriminate;
      rewrite ?orb_true_r; reflexivity. }
  split; [|split].
  - unfold chat_context. cbv zeta. rewrite Hgate, Hrec.
    unfold recent_context, inferred_days.
    destruct (contains "week" (lower message)); [reflexivity|].
    destruct (contains "month" (lower message)); reflexivity.
  - unfold inferred_days.
    destruct (contains "week" (lower message)),
             (contains "month" (lower message)); split; intro H;
      try discriminate; try (destruct H; discriminate); auto.
  - unfold inferred_days.
    destruct (contains "week" (lower message)),
             (contains "month" (lower message)); auto.
Qed.

Lemma scan_words_silent words :
  forall w w', scan_words words w = Done "" w' -> w' = w.
Proof.
  induction words as [|word rest IH]; intros w w' H.
  - unfold scan_words, ret in H. now injection H.
  - destruct rest as [|term rest'].
    + cbn [scan_words] in H. unfold ret in H. now injection H.
    + cbn [scan_words] in H. destruct (is_search_word word).
      * unfold bind in H. destruct (search_databases term w); discriminate H.
      * apply IH. exact H.
Qed.

Lemma chat_context_silent message :
  forall w w', chat_context message w = Done "" w' -> w' = w.
Proof.
  intros w w' H. unfold chat_context in H. cbv zeta in H.
  destruct (existsb _ search_keywords).
  - destruct (contains "recent" (lower message) || contains "latest" (lower message)).
    + unfold bind in H. destruct (get_recent_entries _ w); discriminate H.
    + now apply scan_words_silent in H.
  - unfold ret in H. now injection H.
Qed.

(** X14. A reply of [/chat] that reports [used_notion_data] false was
    produced without any request to the remote: the world is unchanged. *)
Theorem chat_unused_data_no_request :
  forall (req : flask_request) (w w' : world) (resp : http_response),
    chat req w = Done resp w' ->
    getitem (resp_body resp) "used_notion_data" = Ok (VBool false) ->
    w' = w.
Proof.
  intros req w w' resp Hrun Hused. unfold chat in Hrun.
  destruct (method req =? "OPTIONS").
  { unfold ret in Hrun. injection Hrun as <- _. discriminate Hused. }
  destruct key_missing.
  { unfold ret in Hrun. injection Hrun as <- _. discriminate Hused. }
  unfold bind at 1, lift at 1 in Hrun.
  destruct (get_json req) as [data|e]; [|discriminate].
  unfold bind at 1, lift at 1 in Hrun.
  destruct (if negb (truthy data) then Ok true
            else (found <- member "message" data ;; Ok (negb found))%res)
    as [[|]|e]; try discriminate.
  { unfold ret in Hrun. injection Hrun as <- _. discriminate Hused. }
  unfold bind at 1, lift at 1 in Hrun.
  destruct (getitem data "message") as [user_message|e]; [|discriminate].
  unfold try_except, chat_reply, bind at 1, lift at 1 in Hrun.
  destruct genai_model as [[]|e].
  2:{ unfold error_500, ret in Hrun. injection Hrun as <- _. discriminate Hused. }
  destruct user_message as [| | |message| |];
    try (unfold lift, error_500, ret in Hrun; injection Hrun as <- _;
         discriminate Hused).
  unfold bind at 1 in Hrun.
  destruct (chat_context message w) as [ctx w1|e w1|w1] eqn:Hctx.
  - unfold finish_chat, bind, lift in Hrun.
    destruct (generate_content _) as [text|e].
    + unfold ret in Hrun. injection Hrun as <- <-.
      simpl in Hused. injection Hused as Hused.
      apply negb_false_iff, String.eqb_eq in Hused. subst ctx.
      now apply (chat_context_silent message w w1).
    + unfold error_500, ret in Hrun. injection Hrun as <- _. discriminate Hused.
  - unfold error_500, ret in Hrun. injection Hrun as <- _. discriminate Hused.
  - discriminate.
Qed.

(** X15. A JSON array that contains the string "message", or a JSON string
    that contains it, passes the presence check of [/chat] and then raises
    [TypeError] at [data['message']], outside the [try] block: the exception
    leaves the handler. *)
Theorem chat_non_object_body :
  forall (req : flask_request) (w : world),
    method req = "POST" ->
    key_missing = false ->
    (forall l,
       get_json req = Ok (VList l) ->
       existsb (fun x => eq_str x "message") l = true ->
       chat req w
       = Raised (TypeError "list indices must be integers or slices, not str") w) /\
    (forall s,
       get_json req = Ok (VStr s) ->
       contains "message" s = true ->
       chat req w
       = Raised (TypeError "string indices must be integers, not 'str'") w).
Proof.
  intros req w Hpost Hkey. unfold chat. rewrite Hpost, Hkey. simpl. split.
  - intros l Hjson Hin. unfold bind, lift. rewrite Hjson.
    destruct l as [|x l]; [discriminate|].
    cbn [truthy negb member rbind]. rewrite Hin. reflexivity.
  - intros s Hjson Hin. unfold bind, lift. rewrite Hjson.
    destruct s as [|c s]; [discriminate|].
    cbn [truthy negb member rbind String.eqb]. rewrite Hin. reflexivity.
Qed.

Lemma try_except_catches {A} (m : M A) (h : exn -> M A) w :
  (forall e w0, raised (h e w0) = false) -> raised (try_except m h w) = false.
Proof.
  intro Hh. unfold try_except. destruct (m w); auto.
Qed.

(** X16. No exception leaves [/search], [/recent] or [/status], whatever the
    request and the remote; none leaves [/chat] when the body is a JSON
    object. *)
Theorem handlers_catch :
  forall (req : flask_request) (w : world),
    raised (search req w) = false /\
    raised (recent req w) = false /\
    raised (status w) = false /\
    (forall d, get_json req = Ok (VDict d) -> raised (chat req w) = false).
Proof.
  intros req w. split; [|split; [|split]].
  - unfold search. destruct (negb _); [reflexivity|].
    apply try_except_catches. reflexivity.
  - unfold recent. apply try_except_catches. reflexivity.
  - unfold status. apply try_except_catches. reflexivity.
  - intros d Hjson. unfold chat.
    destruct (method req =? "OPTIONS"); [reflexivity|].
    destruct key_missing; [reflexivity|].
    unfold bind at 1, lift at 1. rewrite Hjson.
    unfold bind at 1, lift at 1.
    destruct d as [|kv d]; [reflexivity|].
    cbn [truthy negb member rbind].
    destruct (existsb (String.eqb "message") (dict_keys (kv :: d))) eqn:Hmem;
      [|reflexivity].
    cbn [negb]. unfold bind at 1, lift at 1, getitem.
    destruct (dict_get (kv :: d) "message") as [v|] eqn:Hget.
    + apply try_except_catches. reflexivity.
    + rewrite (dict_get_not_member _ _ Hget) in Hmem. discriminate.
Qed.

(** X17. The two routes test the generation key differently: with the key
    set to the empty string every POST to [/chat] is answered 500 "not
    configured", while every 200 answer of [/status] reports
    [gemini_configured] true. *)
Theorem empty_key_disagreement :
  GEMINI_API_KEY = Some "" ->
  (forall req w,
     method req = "POST" -> chat req w = Done key_not_configured w) /\
  (forall w w' resp,
     status w = Done resp w' ->
     resp_status resp = 200%Z ->
     getitem (resp_body resp) "gemini_configured" = Ok (VBool true)).
Proof.
  intro Hkey. split.
  - intros req w Hpost. unfold chat, key_missing. rewrite Hpost, Hkey. reflexivity.
  - intros w w' resp Hrun Hok. unfold status, try_except, bind at 1 in Hrun.
    destruct (get_all_data w) as [data w1|e w1|w1].
    + unfold bind at 1, lift at 1 in Hrun.
      destruct (sum_counts data) as [total|e].
      * unfold ret in Hrun. injection Hrun as <- _.
        unfold key_present. rewrite Hkey. reflexivity.
      * unfold ret in Hrun. injection Hrun as <- _. discriminate Hok.
    + unfold ret in Hrun. injection Hrun as <- _. discriminate Hok.
    + discriminate.
Qed.

Lemma spaceless_app a b : spaceless (a ++ b) = spaceless a && spaceless b.
Proof.
  induction a as [|c a IH]; simpl; [reflexivity|].
  now rewrite IH, andb_assoc.
Qed.

Lemma split_go_tokens s :
  forall cur w,
    spaceless cur = true ->
    In w (split_go s cur) -> w <> "" /\ spaceless w = true.
Proof.
  induction s as [|c s IH]; simpl; intros cur w Hcur Hin.
  - destruct (String.eqb_spec cur "") as [->|Hne]; [contradiction|].
    destruct Hin as [<-|[]]. auto.
  - destruct (is_space c) eqn:Hc.
    + destruct (String.eqb_spec cur "") as [->|Hne].
      * now apply (IH "" w).
      * destruct Hin as [<-|Hin]; [auto | now apply (IH "" w)].
    + apply (IH (cur ++ String c "") w); [|exact Hin].
      rewrite spaceless_app, Hcur. simpl. now rewrite Hc.
Qed.

(** X18. The keyword [chat] searches for is a token of [message.split()]:
    it is never empty and holds no whitespace. *)
Theorem chat_search_term_token :
  forall (message word term : string),
    first_search_word (split message) word term ->
    term <> "" /\ spaceless term = true /\ In term (split message).
Proof.
  intros message word term (pre & post & Hsplit & _ & _).
  assert (Hin : In term (split message)).
  { rewrite Hsplit. apply in_or_app. right. right. now left. }
  destruct (split_go_tokens message "" term eq_refl Hin) as [Hne Hsp]. auto.
Qed.

(** ** Order of cutoffs *)

Lemma string_leb_trans a b c :
  String.leb a b = true -> String.leb b c = true -> String.leb a c = true.
Proof.
  unfold String.leb. revert b c.
  induction a as [|x a IH]; intros [|y b] [|z c]; simpl; try easy.
  unfold Ascii.compare.
  destruct (N.compare_spec (N_of_ascii x) (N_of_ascii y)) as [Hxy|Hxy|Hxy];
    destruct (N.compare_spec (N_of_ascii y) (N_of_ascii z)) as [Hyz|Hyz|Hyz];
    destruct (N.compare_spec (N_of_ascii x) (N_of_ascii z)) as [Hxz|Hxz|Hxz];
    try easy; try lia.
  apply IH.
Qed.

Lemma qualifies_earlier c1 c2 entry :
  String.leb c1 c2 = true -> qualifies c2 entry = true -> qualifies c1 entry = true.
Proof.
  unfold qualifies. destruct (timestamp entry) as [s|]; [|discriminate].
  apply string_leb_trans.
Qed.

Lemma filter_length_le {A} (f g : A -> bool) (l : list A) :
  (forall x, f x = true -> g x = true) ->
  List.length (filter f l) <= List.length (filter g l).
Proof.
  intro H. induction l as [|x l IH]; simpl; [lia|].
  destruct (f x) eqn:Hf.
  - rewrite (H x Hf). simpl. lia.
  - destruct (g x); simpl; lia.
Qed.

Lemma rmap_In {A B} (f : A -> res B) (l : list A) :
  forall out, rmap f l = Ok out ->
  forall y, In y out <-> exists x, In x l /\ f x = Ok y.
Proof.
  induction l as [|x l IH]; simpl; intros out H y.
  - injection H as <-. split; [intros [] | intros (x & [] & _)].
  - destruct (f x) as [b|e] eqn:Hx; simpl in H; [|discriminate].
    destruct (rmap f l) as [bs|e]; simpl in H; [|discriminate].
    injection H as <-. simpl. rewrite (IH bs eq_refl y). split.
    + intros [<-|(x' & Hin & Hfx)]; eauto.
    + intros (x' & [<-|Hin] & Hfx); [left; congruence | eauto].
Qed.

(** X19. Widening the window loses nothing: for two cutoffs with
    [c1 <= c2] in the order of strings, every record kept by the loop of the
    recency query for [c2] is kept for [c1], so the bucket for [c1] is at
    least as long. *)
Theorem recent_window_monotone :
  forall (c1 c2 : string) (entries k1 k2 : list value),
    String.leb c1 c2 = true ->
    forallb timestamped entries = true ->
    kept_records c1 entries = Ok k1 ->
    kept_records c2 entries = Ok k2 ->
    rfold (recent_step c1) entries [] = Ok k1 /\
    rfold (recent_step c2) entries [] = Ok k2 /\
    incl k2 k1 /\
    List.length k2 <= List.length k1.
Proof.
  intros c1 c2 entries k1 k2 Hle Hts H1 H2.
  split; [exact (recent_loop c1 entries k1 [] Hts H1)|].
  split; [exact (recent_loop c2 entries k2 [] Hts H2)|].
  unfold kept_records in *. split.
  - intros y Hy. apply (rmap_In _ _ _ H2) in Hy. destruct Hy as (x & Hx & Hfx).
    apply (rmap_In _ _ _ H1). exists x. split; [|exact Hfx].
    apply filter_In in Hx. apply filter_In. destruct Hx as [Hin Hq].
    split; [exact Hin | exact (qualifies_earlier c1 c2 x Hle Hq)].
  - rewrite (rmap_length _ _ _ H1), (rmap_length _ _ _ H2).
    apply filter_length_le. intros x. apply qualifies_earlier, Hle.
Qed.

End App.

(** ** The theorems at the sample data *)

Example parse_record_a : parse_notion_page record_a = Ok parsed_a.
Proof. reflexivity. Qed.

Example parse_record_b : parse_notion_page record_b = Ok parsed_b.
Proof. reflexivity. Qed.

Example fetch_sample :
  fetch_each sample_token sample_ids sample_world = Done sample_groups sample_world_after.
Proof. reflexivity. Qed.

Example search_best :
  search_databases sample_token sample_ids "best" sample_world
  = Done [search_hit "db1" parsed_a; search_hit "db2" parsed_c] sample_world_after.
Proof. reflexivity. Qed.

Example recent_week :
  get_recent_entries sample_token sample_ids sample_cutoff 7 sample_world
  = Done [("db1", VList [parsed_b])] sample_world_after.
Proof. reflexivity. Qed.

(** The normalizer on the rich text ["Awards"] of record a, and on a rich
    text whose content is null. *)
Lemma get_property_value_documented_witness :
  get_property_value (VDict properties_a) "Awards" = Ok (VStr "Best Picture") /\
  exists e,
    get_property_value (VDict [("Notes", VDict null_rich_text)]) "Notes" = Raise e.
Proof.
  split.
  - apply (proj1 (proj1 (proj2 (get_property_value_documented properties_a "Awards"))
                    awards_payload eq_refl)).
    reflexivity.
  - apply (proj2 (proj1 (proj2 (get_property_value_documented
                                  [("Notes", VDict null_rich_text)] "Notes"))
                    null_rich_text eq_refl)).
    reflexivity.
Defined.

(** C5 as documented fails: a rich text whose content is null has no text
    run, so the table gives the empty string, but the normalizer raises. *)
Lemma normalizer_rule_counterexample :
  ~ normalizer_rule [("Notes", VDict null_rich_text)] "Notes".
Proof.
  intro Hrule. specialize (Hrule null_rich_text eq_refl).
  vm_compute in Hrule. discriminate Hrule.
Qed.

(** The parser on record a: "Tags" (empty list), "Link" (null) and "Score"
    (unrecognized type) are left out. *)
Lemma parse_notion_page_properties_witness :
  exists raw props,
    get record_a "properties" (VDict []) = Ok (VDict raw) /\
    getitem parsed_a "properties" = Ok (VDict props) /\
    (forall k v, In (k, v) props ->
       v <> VNone /\ v <> VStr "" /\ v <> VList [] /\ truthy v = true) /\
    (forall k v, dict_get props k = Some v <->
       In k (dict_keys raw) /\
       get_property_value (VDict raw) k = Ok v /\ truthy v = true).
Proof.
  apply (parse_notion_page_properties record_a parsed_a). reflexivity.
Defined.

(** The fetcher on two pages of one collection, and on a page followed by a
    failing one. *)
Lemma get_all_database_entries_pages_witness :
  (exists sent',
     get_all_database_entries sample_token "db1" (mk_world [page_1; page_2; page_3] [])
     = Done [record_a; record_b] (mk_world [page_3] sent')) /\
  (exists sent',
     get_all_database_entries sample_token "db1" (mk_world [page_1; page_unavailable] [])
     = Done [record_a] (mk_world [] sent')).
Proof.
  split.
  - destruct (proj1 (get_all_database_entries_pages sample_token "db1" [page_1] []
                       eq_refl) page_2 [page_3] eq_refl) as (sent' & Hrun & _).
    exists sent'. exact Hrun.
  - destruct (proj1 (get_all_database_entries_pages sample_token "db1" [page_1] []
                       eq_refl) page_unavailable [] eq_refl) as (sent' & Hrun & _).
    exists sent'. exact Hrun.
Defined.

(** The context of a summary of three collections, line by line, and that
    of a list of search hits, on one line. *)
Lemma create_notion_context_lines_witness :
  create_notion_context summary_sample
  = String.concat (chr newline) summary_sample_text /\
  create_notion_context hits_sample = hits_sample_text.
Proof.
  split.
  - exact (eq_trans (create_notion_context_lines summary_sample) eq_refl).
  - exact (eq_trans (create_notion_context_lines hits_sample) eq_refl).
Defined.

(** C1 as documented fails: the second page has status 200 and a body that
    is no JSON; the fetcher raises, and the record of the first page is
    lost. *)
Lemma fetch_rule_counterexample :
  ~ fetch_rule sample_token "db1" [page_1; page_garbled; page_3].
Proof.
  assert (Hrun : exists e w,
             get_all_database_entries sample_token "db1"
               (mk_world [page_1; page_garbled; page_3] [])
             = Raised e w)
    by (eexists; eexists; reflexivity).
  destruct Hrun as (e & w & Hrun).
  intros [(pages & last & rest & sent & _ & _ & _ & Hdone) | (sent & _ & Hwait)].
  - rewrite Hrun in Hdone. discriminate Hdone.
  - rewrite Hrun in Hwait. discriminate Hwait.
Qed.

(** The search for "best" over the two sample collections. *)
Lemma search_databases_hits_witness :
  search_databases sample_token sample_ids "best" sample_world
  = Done [search_hit "db1" parsed_a; search_hit "db2" parsed_c] sample_world_after.
Proof.
  apply (proj1 (search_databases_hits sample_token sample_ids "best"
                  sample_world sample_world_after sample_groups sample_parsed_groups
                  eq_refl eq_refl)).
Defined.

(** The recency window of seven days over the two sample collections: only
    record b qualifies, and "db2" is left out. *)
Lemma get_recent_entries_window_witness :
  exists recent,
    get_recent_entries sample_token sample_ids sample_cutoff 7 sample_world
    = Done recent sample_world_after /\
    dict_get recent "db1" = Some (VList [parsed_b]) /\
    dict_get recent "db2" = None.
Proof.
  destruct (get_recent_entries_window sample_token sample_ids sample_cutoff 7
              "2025-05-28T12:00:00.123456" sample_world sample_world_after
              sample_groups sample_buckets eq_refl eq_refl eq_refl eq_refl)
    as (recent & Hrun & _ & _ & _ & Hexact).
  assert (Hnodup : NoDup sample_ids).
  { repeat constructor; simpl; intuition discriminate. }
  exists recent. split; [exact Hrun|]. split.
  - apply (Hexact Hnodup "db1" [parsed_b]). simpl. auto.
  - apply (Hexact Hnodup "db2" []). simpl. auto.
Defined.

(** A message whose search word is "about", with "what" opening the lookup. *)
Lemma chat_keyword_search_witness :
  chat_context sample_token sample_ids sample_cutoff
    "What do you know about Oscars tonight"
  = search_context sample_token sample_ids "Oscars".
Proof.
  apply (chat_keyword_search sample_token sample_ids (Some "key") sample_cutoff
           (Ok tt) (fun _ => Ok "ok")
           "What do you know about Oscars tonight" "about" "Oscars").
  - reflexivity.
  - exists ["What"; "do"; "you"; "know"], ["tonight"]. repeat split; reflexivity.
  - intros _. reflexivity.
Defined.

(** [POST /chat] with the body [{}], without and with a generation key. *)
Lemma chat_rejections_witness :
  chat sample_token sample_ids None sample_cutoff (Ok tt) (fun _ => Ok "ok")
    post_empty_object sample_world
  = Done key_not_configured sample_world /\
  chat sample_token sample_ids (Some "key") sample_cutoff (Ok tt) (fun _ => Ok "ok")
    post_empty_object sample_world
  = Done message_required sample_world.
Proof.
  split.
  - apply (proj1 (chat_rejections sample_token sample_ids None sample_cutoff
                    (Ok tt) (fun _ => Ok "ok") post_empty_object sample_world
                    eq_refl)).
    reflexivity.
  - apply (proj2 (chat_rejections sample_token sample_ids (Some "key") sample_cutoff
                    (Ok tt) (fun _ => Ok "ok") post_empty_object sample_world
                    eq_refl) eq_refl []); reflexivity.
Defined.

(** C8 as documented fails: after a page that reports more data with the
    empty string as [next_cursor], the second request carries no
    [start_cursor] at all. *)
Lemma cursor_protocol_counterexample :
  ~ cursor_protocol [page_empty_cursor; page_2]
      (outbox (final (get_all_database_entries sample_token "db1"
                        (mk_world [page_empty_cursor; page_2] [])))).
Proof.
  intros [_ Hnext].
  specialize (Hnext 0 (sample_request "db1" []) page_empty_cursor eq_refl eq_refl).
  unfold carries_cursor in Hnext. simpl in Hnext. discriminate Hnext.
Qed.

(** C6 as documented fails: "about" followed by a token does not start a
    search when none of the words that open the lookup occurs. *)
Lemma keyword_search_rule_counterexample :
  ~ keyword_search_rule sample_token sample_ids sample_cutoff "tell me about oscars".
Proof.
  intro Hrule.
  assert (Hfirst : first_search_word (split "tell me about oscars") "about" "oscars").
  { exists ["tell"; "me"], []. repeat split; reflexivity. }
  specialize (Hrule eq_refl "about" "oscars" Hfirst).
  apply (f_equal (fun run => run sample_world)) in Hrule.
  vm_compute in Hrule. discriminate Hrule.
Qed.

(** The comparison with the cutoff is the order of strings, not of the
    instants they denote: "9" sorts after "10". *)
Example qualifies_is_lexicographic :
  qualifies "10" (VDict [("created_time", VStr "9")]) = true /\
  qualifies "2025-05-28T12:00:00.123456"
    (VDict [("created_time", VStr "2025-05-28T12:00:00.000Z")]) = false.
Proof. split; reflexivity. Qed.

(** A message with "about" but none of the opening words: no lookup, no
    request, empty context. *)
Example chat_context_about_only :
  chat_context sample_token sample_ids sample_cutoff "tell me about oscars" sample_world
  = Done "" sample_world.
Proof. reflexivity. Qed.

(** ** The further properties at the sample data *)

Lemma get_all_database_entries_unreadable_witness :
  exists e sent',
    get_all_database_entries sample_token "db1"
      (mk_world [page_1; page_garbled; page_3] [])
    = Raised e (mk_world [page_3] sent').
Proof.
  apply (get_all_database_entries_unreadable sample_token "db1" [page_1]
           page_garbled [page_3] []); reflexivity.
Defined.

Lemma parse_notion_page_exact_witness :
  parse_notion_page record_a = Ok parsed_a.
Proof.
  apply (parse_notion_page_exact fields_a properties_a normalized_a).
  - reflexivity.
  - repeat constructor; simpl; intuition discriminate.
  - reflexivity.
Defined.

Lemma search_databases_ignores_case_witness :
  search_databases sample_token sample_ids "BEST" sample_world
  = search_databases sample_token sample_ids "best" sample_world.
Proof.
  apply (proj1 (search_databases_ignores_case sample_token sample_ids
                  "BEST" "best" sample_world eq_refl)).
Defined.

(** A record is found by part of the name of one of its properties. *)
Lemma matches_names_and_values_witness :
  matches "award" parsed_a = true.
Proof.
  apply (matches_names_and_values "award" "Awards" parsed_a
           [("Name", VStr "A"); ("Awards", VStr "Best Picture")]).
  - reflexivity.
  - reflexivity.
  - exists "Awards", (VStr "Best Picture"). split; [simpl; auto | now left].
  - exists "", "s". reflexivity.
Defined.

Lemma search_databases_non_ascii_witness :
  search_databases sample_token sample_ids keyword_cafe sample_world
  = Done [] sample_world_after.
Proof.
  apply (proj2 (search_databases_non_ascii sample_token sample_ids keyword_cafe
                  eq_refl)
           sample_world sample_world_after sample_groups sample_parsed_groups);
    reflexivity.
Defined.

Lemma get_recent_entries_buckets_witness :
  Forall (fun kv => is_bucket (snd kv) = true /\ In (fst kv) sample_ids)
    [("db1", VList [parsed_b])] /\
  NoDup (dict_keys [("db1", VList [parsed_b])]).
Proof.
  apply (get_recent_entries_buckets sample_token sample_ids sample_cutoff 7
           sample_world sample_world_after).
  reflexivity.
Defined.

Lemma recent_totals_witness :
  exists resp,
    recent sample_token sample_ids sample_cutoff sample_int get_recent_month
      sample_world
    = Done resp sample_world_after /\
    getitem (resp_body resp) "total_entries" = Ok (VInt 1) /\
    getitem (resp_body resp) "by_database" = Ok (VDict [("db1", VInt 1)]).
Proof.
  destruct (recent_totals sample_token sample_ids sample_cutoff sample_int
              get_recent_month sample_world sample_world_after
              [("db1", VList [parsed_b])] eq_refl) as [Hrun _].
  eexists. split; [exact Hrun|]. split; reflexivity.
Defined.

Lemma get_recent_entries_bad_timestamp_witness :
  exists e,
    get_recent_entries sample_token sample_ids sample_cutoff 7
      (mk_world [page_1; page_2; page_untimed] [])
    = Raised e sample_world_after.
Proof.
  destruct (get_recent_entries_bad_timestamp sample_token sample_ids sample_cutoff
              sample_int 7 "2025-05-28T12:00:00.123456" "db2" ["db1"] []
              (mk_world [page_1; page_2; page_untimed] [])
              (mk_world [page_untimed]
                 [sample_request "db1" [];
                  sample_request "db1" [("start_cursor", VStr "cursor-1")]])
              sample_world_after
              [("db1", [record_a; record_b])] [("db1", [parsed_b])]
              [record_b] [] [parsed_b] record_untimed
              eq_refl eq_refl eq_refl eq_refl eq_refl eq_refl eq_refl eq_refl
              eq_refl) as (e & Hrun & _).
  exists e. exact Hrun.
Defined.

Lemma get_all_data_entries_witness :
  get_all_data sample_token sample_ids sample_world
  = Done (all_data_of 1 sample_parsed_groups) sample_world_after.
Proof.
  apply (proj1 (get_all_data_entries sample_token sample_ids sample_world
                  sample_world_after sample_groups sample_parsed_groups
                  eq_refl eq_refl)).
Defined.

Lemma status_totals_witness :
  status sample_token sample_ids (Some "key") sample_world
  = Done (status_success sample_ids (Some "key") 3) sample_world_after.
Proof.
  apply (status_totals sample_token sample_ids (Some "key") sample_world
           sample_world_after sample_groups sample_parsed_groups);
    reflexivity.
Defined.

Lemma status_remote_down_witness :
  status sample_token sample_ids (Some "key")
    (mk_world [page_unavailable; page_unavailable] [])
  = Done (status_success sample_ids (Some "key") 0)
      (mk_world [] [sample_request "db1" []; sample_request "db2" []]).
Proof.
  apply (status_remote_down sample_token sample_ids (Some "key")
           [page_unavailable; page_unavailable] [] []); reflexivity.
Defined.

Lemma chat_context_recency_witness :
  chat_context sample_token sample_ids sample_cutoff
    "Search the LATEST news of this month"
  = recent_context sample_token sample_ids sample_cutoff 30.
Proof.
  apply (proj1 (chat_context_recency sample_token sample_ids sample_cutoff
                  "Search the LATEST news of this month" eq_refl)).
Defined.

Lemma chat_unused_data_no_request_witness :
  chat sample_token sample_ids (Some "key") sample_cutoff (Ok tt)
    (fun _ => Ok "hi") (post_message "hello there") sample_world
  = Done hello_reply sample_world /\
  sample_world = sample_world.
Proof.
  assert (Hrun : chat sample_token sample_ids (Some "key") sample_cutoff (Ok tt)
                   (fun _ => Ok "hi") (post_message "hello there") sample_world
                 = Done hello_reply sample_world) by reflexivity.
  split; [exact Hrun|].
  apply (chat_unused_data_no_request sample_token sample_ids (Some "key")
           sample_cutoff (Ok tt) (fun _ => Ok "hi") (post_message "hello there")
           sample_world sample_world hello_reply Hrun).
  reflexivity.
Defined.

Lemma chat_non_object_body_witness :
  chat sample_token sample_ids (Some "key") sample_cutoff (Ok tt)
    (fun _ => Ok "hi") post_array sample_world
  = Raised (TypeError "list indices must be integers or slices, not str")
      sample_world.
Proof.
  apply (proj1 (chat_non_object_body sample_token sample_ids (Some "key")
                  sample_cutoff (Ok tt) (fun _ => Ok "hi") post_array
                  sample_world eq_refl eq_refl) [VStr "message"]);
    reflexivity.
Defined.

Lemma handlers_catch_witness :
  raised (chat sample_token sample_ids (Some "key") sample_cutoff (Ok tt)
            (fun _ => Ok "hi") (post_message "find Oscars")
            (mk_world [page_garbled] []))
  = false.
Proof.
  apply (proj2 (proj2 (proj2
           (handlers_catch sample_token sample_ids (Some "key") sample_cutoff
              (Ok tt) (fun _ => Ok "hi") sample_int (post_message "find Oscars")
              (mk_world [page_garbled] []))))
           [("message", VStr "find Oscars")]).
  reflexivity.
Defined.

Lemma empty_key_disagreement_witness :
  chat sample_token sample_ids (Some "") sample_cutoff (Ok tt)
    (fun _ => Ok "hi") (post_message "hello there") sample_world
  = Done key_not_configured sample_world /\
  getitem (resp_body (status_success sample_ids (Some "") 3)) "gemini_configured"
  = Ok (VBool true).
Proof.
  destruct (empty_key_disagreement sample_token sample_ids (Some "") sample_cutoff
              (Ok tt) (fun _ => Ok "hi") eq_refl) as [Hchat Hstatus].
  split.
  - apply Hchat. reflexivity.
  - apply (Hstatus sample_world sample_world_after); reflexivity.
Defined.

Lemma chat_search_term_token_witness :
  "Oscars" <> "" /\ spaceless "Oscars" = true /\
  In "Oscars" (split "What do you know about Oscars tonight").
Proof.
  apply (chat_search_term_token "What do you know about Oscars tonight"
           "about" "Oscars").
  exists ["What"; "do"; "you"; "know"], ["tonight"]. repeat split; reflexivity.
Defined.

Lemma recent_window_monotone_witness :
  incl [parsed_b] [parsed_a; parsed_b; parsed_c] /\ 1 <= 3.
Proof.
  destruct (recent_window_monotone "2023-01-01T00:00:00.000000"
              "2025-05-28T12:00:00.123456" [record_a; record_b; record_c]
              [parsed_a; parsed_b; parsed_c] [parsed_b]
              eq_refl eq_refl eq_refl eq_refl) as (_ & _ & Hincl & Hlen).
  split; [exact Hincl | exact Hlen].
Defined.
